(** * HTTP client of Book-Bookkeeper: a shallow embedding of
      [src/HTTP/Client.cpp] and the properties of its request formatter,
      response parser, socket loops and cookie jar.

    Conventions.
    - [std::string] is [string] (a sequence of 8-bit characters, NUL allowed).
    - [int] is a [Z] kept in the 32-bit range by [wrap_int]; [size_t] is a [Z]
      kept in the 64-bit range by [to_size_t].
    - A C++ exception is the [Throws] outcome of [result]; a loop that has not
      finished when its fuel is spent is the [Diverges] outcome.
    - The operating system is a type [W] with the [Sockets] operations; every
      system call is recorded in a trace of [event]s. *)

From Stdlib Require Import String Ascii List ZArith Lia Bool Arith.
From Stdlib Require Import DecimalString DecimalNat.
From Stdlib Require Import FMapList FMapFacts OrderedTypeEx SetoidList.
Import ListNotations.

Local Open Scope string_scope.

(* ------------------------------------------------------------------------- *)
(** ** Outcomes: values, exceptions, divergence *)

(** The only exception the translated code can raise. *)
Inductive exn : Type :=
| out_of_range.

Inductive result (A : Type) : Type :=
| Ret (a : A)
| Throws (e : exn)
| Diverges.

Arguments Ret {A} a.
Arguments Throws {A} e.
Arguments Diverges {A}.

Definition rbind {A B : Type} (r : result A) (k : A -> result B) : result B :=
  match r with
  | Ret a => k a
  | Throws e => Throws e
  | Diverges => Diverges
  end.

Declare Scope result_scope.
Delimit Scope result_scope with result.
Notation "'try' x <- c ; k" := (rbind c (fun x => k))
  (at level 10, x name, c at level 100, k at level 200)
  : result_scope.

(* ------------------------------------------------------------------------- *)
(** ** Machine integers *)

Definition INT_MAX : Z := 2147483647.
Definition INT_MIN : Z := -2147483648.
Definition LONG_MAX : Z := 9223372036854775807.
Definition LONG_MIN : Z := -9223372036854775808.

(** Two's complement reduction into the range of [int]. *)
Definition wrap_int (z : Z) : Z := (z + 2 ^ 31) mod 2 ^ 32 - 2 ^ 31.

(** Conversion of a signed value to [size_t] (64 bits). *)
Definition to_size_t (z : Z) : Z := z mod 2 ^ 64.

(* ------------------------------------------------------------------------- *)
(** ** [std::string] and the C character classes *)

Definition CR : ascii := ascii_of_nat 13.
Definition LF : ascii := ascii_of_nat 10.
Definition NUL : ascii := ascii_of_nat 0.
Definition CRLF : string := String CR (String LF EmptyString).

(** [isspace] in the C locale: space, and HT LF VT FF CR. *)
Definition isspace (c : ascii) : bool :=
  let n := nat_of_ascii c in
  (n =? 32)%nat || ((9 <=? n)%nat && (n <=? 13)%nat).

Definition isdigit (c : ascii) : bool :=
  let n := nat_of_ascii c in
  (48 <=? n)%nat && (n <=? 57)%nat.

(** [::tolower] in the C locale. *)
Definition tolower (c : ascii) : ascii :=
  let n := nat_of_ascii c in
  if (65 <=? n)%nat && (n <=? 90)%nat then ascii_of_nat (n + 32) else c.

Definition digit_value (c : ascii) : Z := Z.of_nat (nat_of_ascii c) - 48.

Fixpoint transform (f : ascii -> ascii) (s : string) : string :=
  match s with
  | EmptyString => EmptyString
  | String c r => String (f c) (transform f r)
  end.

Fixpoint take (n : nat) (s : string) : string :=
  match n, s with
  | S k, String c r => String c (take k r)
  | _, _ => EmptyString
  end.

Fixpoint drop (n : nat) (s : string) : string :=
  match n, s with
  | S k, String _ r => drop k r
  | _, _ => s
  end.

(** [s.find(c)]: the index of the first occurrence, [None] for [npos]. *)
Fixpoint find (c : ascii) (s : string) : option nat :=
  match s with
  | EmptyString => None
  | String d r => if Ascii.eqb d c then Some 0%nat else option_map S (find c r)
  end.

(** [s.substr(pos)]: throws [std::out_of_range] when [pos > s.size()]. *)
Definition substr_from (s : string) (pos : nat) : result string :=
  if (pos <=? String.length s)%nat then Ret (drop pos s) else Throws out_of_range.

(** [s.substr(pos, n)]. *)
Definition substr (s : string) (pos n : nat) : result string :=
  if (pos <=? String.length s)%nat then Ret (take n (drop pos s))
  else Throws out_of_range.

(** [s.erase(pos)]: drops everything from [pos] on. *)
Definition erase (s : string) (pos : nat) : result string :=
  if (pos <=? String.length s)%nat then Ret (take pos s) else Throws out_of_range.

(** The characters of a buffer read as a C string: up to the first NUL. *)
Fixpoint c_str (s : string) : string :=
  match s with
  | EmptyString => EmptyString
  | String c r => if Ascii.eqb c NUL then EmptyString else String c (c_str r)
  end.

Fixpoint skip_ws (s : string) : string :=
  match s with
  | EmptyString => EmptyString
  | String c r => if isspace c then skip_ws r else s
  end.

(** The longest prefix of characters satisfying [p], and what follows it. *)
Fixpoint span (p : ascii -> bool) (s : string) : string * string :=
  match s with
  | EmptyString => (EmptyString, EmptyString)
  | String c r =>
      if p c then let (a, b) := span p r in (String c a, b)
      else (EmptyString, s)
  end.

Fixpoint digits_value (acc : Z) (s : string) : Z :=
  match s with
  | EmptyString => acc
  | String c r => digits_value (10 * acc + digit_value c) r
  end.

Definition to_string (n : nat) : string :=
  NilZero.string_of_uint (Nat.to_uint n).

Definition to_string_int (z : Z) : string :=
  NilZero.string_of_int (Z.to_int z).

(** [std::atoi]: leading white space, an optional sign, decimal digits.  A
    value outside [long] is clamped as [strtol] does, and the result is then
    narrowed to [int]. *)
Definition atoi (s : string) : Z :=
  let s := skip_ws s in
  let '(neg, s) :=
    match s with
    | String "-" r => (true, r)
    | String "+" r => (false, r)
    | _ => (false, s)
    end in
  let v := digits_value 0 (fst (span isdigit s)) in
  let v := if neg then (- v)%Z else v in
  wrap_int (Z.max LONG_MIN (Z.min LONG_MAX v)).

(* ------------------------------------------------------------------------- *)
(** ** [std::stringstream] extraction, as used on the status line *)

Record stringstream : Type := mk_ss { ss_rest : string; ss_fail : bool }.

(** [ss >> str] for a [std::string]: nothing happens on a failed stream; white
    space is skipped; at end of input the stream fails and [str] keeps its
    value; otherwise [str] becomes the next run of non-space characters. *)
Definition extract_string (ss : stringstream) (cur : string) : string * stringstream :=
  if ss_fail ss then (cur, ss)
  else
    match skip_ws (ss_rest ss) with
    | EmptyString => (cur, mk_ss EmptyString true)
    | r => let (tok, r') := span (fun c => negb (isspace c)) r in
           (tok, mk_ss r' false)
    end.

(** [ss >> n] for an [int]: an optional sign and decimal digits; no digit
    stores 0 and fails; a value outside [int] stores the nearest bound and
    fails. *)
Definition extract_int (ss : stringstream) (cur : Z) : Z * stringstream :=
  (if ss_fail ss then (cur, ss)
  else
    match skip_ws (ss_rest ss) with
    | EmptyString => (cur, mk_ss EmptyString true)
    | r =>
        let '(neg, r) :=
          match r with
          | String "-" r' => (true, r')
          | String "+" r' => (false, r')
          | _ => (false, r)
          end in
        let (ds, r') := span isdigit r in
        match ds with
        | EmptyString => (0, mk_ss r' true)
        | _ =>
            let v := digits_value 0 ds in
            let v := if neg then - v else v in
            if v >? INT_MAX then (INT_MAX, mk_ss r' true)
            else if v <? INT_MIN then (INT_MIN, mk_ss r' true)
            else (v, mk_ss r' false)
        end
    end)%Z.

(* ------------------------------------------------------------------------- *)
(** ** The [Map] type *)

(** Modelled from the spec: the typedef [Map] is declared in [HTTP/Client.h],
    which is not among the sources.  The spec calls it an ordered mapping from
    name to value with a fixed iteration order; it is taken as
    [std::map<std::string, std::string>], whose iteration is by increasing key. *)
Module SMap := FMapList.Make String_as_OT.
Module SMapFacts := FMapFacts.WFacts_fun String_as_OT SMap.

Definition Map : Type := SMap.t string.

(** [m.size()]. *)
Definition size (m : Map) : nat := SMap.cardinal m.

(** [m[k] = v]: inserts or overwrites. *)
Definition assign (k v : string) (m : Map) : Map := SMap.add k v m.

(** [dst.insert(src.begin(), src.end())]: every entry of [src], in order, is
    inserted unless [dst] already holds its key. *)
Definition insert_range (dst src : Map) : Map :=
  fold_left
    (fun acc kv => if SMap.mem (fst kv) acc then acc else SMap.add (fst kv) (snd kv) acc)
    (SMap.elements src) dst.

(** A map built from a brace-enclosed list of pairs (first occurrence wins). *)
Definition map_of_list (l : list (string * string)) : Map :=
  fold_left
    (fun acc kv => if SMap.mem (fst kv) acc then acc else SMap.add (fst kv) (snd kv) acc)
    l (SMap.empty string).

(* ------------------------------------------------------------------------- *)
(** ** Error codes and the data of the client *)

(** The enumerators of [ECode] that [Client.cpp] uses. *)
Inductive ECode : Type :=
| OK
| SOCKET_CONNECT
| SOCKET_SEND
| SOCKET_RECV
| HOST_ADDRINFO
| HOST_NORESULT
| WSA_STARTUP.

Definition ECode_eqb (a b : ECode) : bool :=
  match a, b with
  | OK, OK | SOCKET_CONNECT, SOCKET_CONNECT | SOCKET_SEND, SOCKET_SEND
  | SOCKET_RECV, SOCKET_RECV | HOST_ADDRINFO, HOST_ADDRINFO
  | HOST_NORESULT, HOST_NORESULT | WSA_STARTUP, WSA_STARTUP => true
  | _, _ => false
  end.

(** [struct sockaddr], kept as its bytes. *)
Definition sockaddr : Type := string.

Record addrinfo : Type := mk_addrinfo {
  ai_family : Z;
  ai_socktype : Z;
  ai_protocol : Z;
  ai_addr : sockaddr
}.

Definition AF_INET : Z := 2.
Definition SOCK_STREAM : Z := 1.
Definition IPPROTO_TCP : Z := 6.
Definition INVALID_SOCKET : Z := -1.
Definition SOCKET_ERROR : Z := -1.

(** Modelled from the spec: the macro [HTTP_VERSION] is defined in
    [HTTP/Client.h]; the spec gives the fixed protocol version string. *)
Definition HTTP_VERSION : string := "HTTP/1.1".

(** The fields of [HTTPResponse] that [Client.cpp] reads and writes. *)
Record HTTPResponse : Type := mk_response {
  _raw : string;
  _protover : string;
  _code : Z;
  _status : string;
  _headers : Map;
  _cookies : Map;
  _data : string
}.

(** A default-constructed [HTTPResponse]. *)
Definition empty_response : HTTPResponse :=
  mk_response EmptyString EmptyString 0 EmptyString
    (SMap.empty string) (SMap.empty string) EmptyString.

(** Modelled from the spec: [HTTPResponse::Reset] is defined in
    [HTTP/Client.h]; the spec has the response reset at the start of each
    receive, so every field goes back to its empty value. *)
Definition Reset (r : HTTPResponse) : HTTPResponse := empty_response.

Definition GetCookies (r : HTTPResponse) : Map := _cookies r.

Definition set_raw (v : string) (r : HTTPResponse) : HTTPResponse :=
  mk_response v (_protover r) (_code r) (_status r) (_headers r) (_cookies r) (_data r).

Definition set_status_line (p : string) (c : Z) (s : string) (r : HTTPResponse)
  : HTTPResponse :=
  mk_response (_raw r) p c s (_headers r) (_cookies r) (_data r).

Definition set_headers (h : Map) (r : HTTPResponse) : HTTPResponse :=
  mk_response (_raw r) (_protover r) (_code r) (_status r) h (_cookies r) (_data r).

Definition set_cookies (c : Map) (r : HTTPResponse) : HTTPResponse :=
  mk_response (_raw r) (_protover r) (_code r) (_status r) (_headers r) c (_data r).

Definition set_data (d : string) (r : HTTPResponse) : HTTPResponse :=
  mk_response (_raw r) (_protover r) (_code r) (_status r) (_headers r) (_cookies r) d.

Record HTTPClient : Type := mk_client {
  _unresolved_host : string;
  _port : Z;
  _address : sockaddr;
  _system_headers : Map;
  _system_cookies : Map
}.

(** [SetupSystemHeaders]: [_system_headers["host"] = "{host}:{port}"]. *)
Definition SetupSystemHeaders (c : HTTPClient) : HTTPClient :=
  mk_client (_unresolved_host c) (_port c) (_address c)
    (assign "host" (_unresolved_host c ++ ":" ++ to_string_int (_port c))
       (_system_headers c))
    (_system_cookies c).

(** The constructor [HTTPClient(server_host, server_port)]. *)
Definition HTTPClient_new (server_host : string) (server_port : Z) : HTTPClient :=
  SetupSystemHeaders
    (mk_client server_host server_port EmptyString
       (SMap.empty string) (SMap.empty string)).

(* ------------------------------------------------------------------------- *)
(** ** [HTTPClient::FormatRequest] *)

Definition query_entry (kv : string * string) : string := fst kv ++ "=" ++ snd kv ++ "&".
Definition header_line (kv : string * string) : string := fst kv ++ ": " ++ snd kv ++ CRLF.
Definition cookie_entry (kv : string * string) : string := fst kv ++ "=" ++ snd kv ++ ";".

(** [for (kv : m) acc += entry(kv)]. *)
Definition append_entries (entry : string * string -> string) (m : Map) (acc : string)
  : string :=
  fold_left (fun a kv => a ++ entry kv) (SMap.elements m) acc.

(** Lines 130-136: the query string. *)
Definition query_string_of (query_params : Map) : string :=
  if (size query_params =? 0)%nat then EmptyString
  else append_entries query_entry query_params "?".

(** Line 139: the request line. *)
Definition request_line (method path : string) (query_params : Map) : string :=
  method ++ " " ++ path ++ query_string_of query_params ++ " " ++ HTTP_VERSION ++ CRLF.

Definition FormatRequest (method path : string) (query_params : Map) (data : string)
    (content_type : string) (headers cookies : Map) : string :=
  let request := request_line method path query_params in
  let request := append_entries header_line headers request in
  let request :=
    if (size cookies =? 0)%nat then request
    else append_entries cookie_entry cookies (request ++ "cookie: ") ++ CRLF in
  let request :=
    if (String.length data =? 0)%nat then request
    else (request ++ "content-length: " ++ to_string (String.length data) ++ CRLF)
           ++ "content-type: " ++ content_type ++ CRLF in
  let request := request ++ CRLF in
  if (String.length data =? 0)%nat then request else request ++ data.

(* ------------------------------------------------------------------------- *)
(** ** [HTTPClient::ParseResponse] *)

Inductive parse_state : Type :=
| STATUS
| HEADERS
| BODY.

(** The variables the loop of [ParseResponse] carries from line to line. *)
Record parser : Type := mk_parser {
  p_state : parse_state;
  p_content_length : Z;
  p_response : HTTPResponse
}.

Local Open Scope result_scope.

(** One iteration of the loop: the [switch] on [state] applied to [line]. *)
Definition parse_line (p : parser) (line : string) : result parser :=
  let response := p_response p in
  match p_state p with
  | STATUS =>
      let ss := mk_ss line false in
      let (protover, ss) := extract_string ss (_protover response) in
      let (code, ss) := extract_int ss (_code response) in
      let (status, ss) := extract_string ss (_status response) in
      Ret (mk_parser HEADERS (p_content_length p)
             (set_status_line protover code status response))
  | HEADERS =>
      if (String.length line =? 0)%nat then
        Ret (mk_parser BODY (p_content_length p) response)
      else
        match find ":" line with
        | None => Ret p
        | Some pos =>
            try key <- substr line 0 pos;
            try val <- substr_from line (pos + 2);
            let key := transform tolower key in
            if negb (String.eqb key "set-cookie") then
              let response := set_headers (assign key val (_headers response)) response in
              if String.eqb key "content-length" then
                Ret (mk_parser HEADERS (to_size_t (atoi val)) response)
              else
                Ret (mk_parser HEADERS (p_content_length p) response)
            else
              match find "=" val with
              | None => Ret p
              | Some pos =>
                  try cookie_key <- substr val 0 pos;
                  try cookie_val <- substr_from val (pos + 1);
                  try cookie_val <-
                    match find ";" cookie_val with
                    | Some pos => erase cookie_val pos
                    | None => Ret cookie_val
                    end;
                  Ret (mk_parser HEADERS (p_content_length p)
                         (set_cookies (assign cookie_key cookie_val (_cookies response))
                            response))
              end
        end
  | BODY =>
      let data := _data response ++ line in
      let data :=
        if (Z.of_nat (String.length data) <? p_content_length p)%Z then data ++ CRLF
        else data in
      Ret (mk_parser BODY (p_content_length p) (set_data data response))
  end.

Fixpoint parse_lines (p : parser) (lines : list string) : result parser :=
  match lines with
  | [] => Ret p
  | line :: rest => try p' <- parse_line p line; parse_lines p' rest
  end.

Section Parser.

(** [Utils::Split] is declared in [Utils.h], outside the sources; the parser
    is stated for any splitting function. *)
Variable Split : string -> string -> list string.

Definition ParseResponse (response : HTTPResponse) : result (ECode * HTTPResponse) :=
  let lines := Split (_raw response) CRLF in
  try p <- parse_lines (mk_parser STATUS 0 response) lines;
  Ret (OK, p_response p).

End Parser.

(** Modelled from the spec: [Utils::Split] is defined outside the sources; the
    spec has it break the raw response into lines on CRLF.  This instance, for
    the delimiter CRLF, keeps empty pieces, the last one included. *)
Fixpoint split_lines (cur : string) (s : string) : list string :=
  match s with
  | EmptyString => [cur]
  | String c r =>
      match r with
      | String d r' =>
          if Ascii.eqb c CR && Ascii.eqb d LF
          then cur :: split_lines EmptyString r'
          else split_lines (cur ++ String c EmptyString) r
      | EmptyString => [cur ++ String c EmptyString]
      end
  end.

Definition Split_CRLF (s delim : string) : list string := split_lines EmptyString s.

(* ------------------------------------------------------------------------- *)
(** ** The operating system: sockets and name resolution *)

(** One entry per system call, with its arguments and what it returned. *)
Inductive event : Type :=
| EvSocket (ret : Z)
| EvConnect (sockfd : Z) (addr : sockaddr) (ret : Z)
| EvClose (sockfd : Z)
| EvSend (sockfd : Z) (buf : string) (len : Z) (ret : Z)
| EvRecv (sockfd : Z) (len : Z) (ret : option string)
| EvGetaddrinfo (node service : string) (ret : Z) (res : list addrinfo)
| EvFreeaddrinfo (res : list addrinfo).

(** The system calls of [Client.cpp] over a world [W].  [sys_send] gets the
    bytes that start at the pointer it is passed and returns the count sent or
    [SOCKET_ERROR]; [sys_recv] returns the bytes it stored in the buffer (the
    call stores at most [len] of them), or [None] for -1. *)
Class Sockets (W : Type) : Type := {
  sys_socket : Z -> Z -> Z -> W -> Z * W;
  sys_connect : Z -> sockaddr -> W -> Z * W;
  sys_closesocket : Z -> W -> W;
  sys_send : Z -> string -> Z -> W -> Z * W;
  sys_recv : Z -> Z -> W -> option string * W;
  sys_getaddrinfo : string -> string -> addrinfo -> W -> (Z * list addrinfo) * W;
  sys_freeaddrinfo : list addrinfo -> W -> W
}.

Record Sys (W : Type) : Type := mk_sys { world : W; trace : list event }.
Arguments mk_sys {W} world trace.
Arguments world {W} s.
Arguments trace {W} s.

(** Computations that run system calls. *)
Definition M (W A : Type) : Type := Sys W -> result (A * Sys W).

Definition ret {W A : Type} (a : A) : M W A := fun s => Ret (a, s).

Definition bind {W A B : Type} (c : M W A) (k : A -> M W B) : M W B :=
  fun s =>
    match c s with
    | Ret (a, s') => k a s'
    | Throws e => Throws e
    | Diverges => Diverges
    end.

Definition lift {W A : Type} (r : result A) : M W A :=
  fun s =>
    match r with
    | Ret a => Ret (a, s)
    | Throws e => Throws e
    | Diverges => Diverges
    end.

Definition diverge {W A : Type} : M W A := fun _ => Diverges.

Declare Scope sys_scope.
Delimit Scope sys_scope with sys.
Notation "'do' x <- c ; k" := (bind c (fun x => k))
  (at level 10, x name, c at level 100, k at level 200) : sys_scope.
Notation "'run' c ; k" := (bind c (fun _ => k))
  (at level 10, c at level 100, k at level 200) : sys_scope.

Section Calls.

Context {W : Type} `{Sockets W}.

Definition call_socket (domain type protocol : Z) : M W Z := fun s =>
  let (r, w) := sys_socket domain type protocol (world s) in
  Ret (r, mk_sys w (trace s ++ [EvSocket r])).

Definition call_connect (sockfd : Z) (addr : sockaddr) : M W Z := fun s =>
  let (r, w) := sys_connect sockfd addr (world s) in
  Ret (r, mk_sys w (trace s ++ [EvConnect sockfd addr r])).

Definition call_closesocket (sockfd : Z) : M W unit := fun s =>
  Ret (tt, mk_sys (sys_closesocket sockfd (world s)) (trace s ++ [EvClose sockfd])).

Definition call_send (sockfd : Z) (buf : string) (len : Z) : M W Z := fun s =>
  let (r, w) := sys_send sockfd buf len (world s) in
  Ret (r, mk_sys w (trace s ++ [EvSend sockfd buf len r])).

Definition call_recv (sockfd : Z) (len : Z) : M W (option string) := fun s =>
  let (r, w) := sys_recv sockfd len (world s) in
  Ret (r, mk_sys w (trace s ++ [EvRecv sockfd len r])).

Definition call_getaddrinfo (node service : string) (hints : addrinfo)
  : M W (Z * list addrinfo) := fun s =>
  let (r, w) := sys_getaddrinfo node service hints (world s) in
  Ret (r, mk_sys w (trace s ++ [EvGetaddrinfo node service (fst r) (snd r)])).

Definition call_freeaddrinfo (res : list addrinfo) : M W unit := fun s =>
  Ret (tt, mk_sys (sys_freeaddrinfo res (world s)) (trace s ++ [EvFreeaddrinfo res])).

End Calls.

(* ------------------------------------------------------------------------- *)
(** ** The member functions of [HTTPClient] that talk to the network *)

Local Open Scope sys_scope.

(** [sizeof(buffer) - 1] in [Receive]. *)
Definition RECV_CAPACITY : Z := 255.

Definition set_address (a : sockaddr) (c : HTTPClient) : HTTPClient :=
  mk_client (_unresolved_host c) (_port c) a (_system_headers c) (_system_cookies c).

Definition set_system_cookies (m : Map) (c : HTTPClient) : HTTPClient :=
  mk_client (_unresolved_host c) (_port c) (_address c) (_system_headers c) m.

(** The [hints] that [ResolveHost] passes to [getaddrinfo]. *)
Definition resolve_hints : addrinfo :=
  mk_addrinfo AF_INET SOCK_STREAM IPPROTO_TCP EmptyString.

(** The test of the loop of [ResolveHost] on one candidate. *)
Definition usable (ptr : addrinfo) : bool :=
  ((ai_family ptr =? AF_INET) && (ai_socktype ptr =? SOCK_STREAM)
   && (ai_protocol ptr =? IPPROTO_TCP))%Z.

(** The loop of [ResolveHost] over the list that starts at [ptr]: [err] and
    [_address] are left as they are unless a candidate passes the test. *)
Fixpoint scan_candidates (ptr : list addrinfo) (err : ECode) (c : HTTPClient)
  : ECode * HTTPClient :=
  match ptr with
  | [] => (err, c)
  | a :: next =>
      if usable a then (OK, set_address (ai_addr a) c)
      else scan_candidates next err c
  end.

(** Lines 115-117: [_system_cookies[kv.first] = kv.second] for every cookie. *)
Definition update_cookies (cookies : Map) (c : HTTPClient) : HTTPClient :=
  set_system_cookies
    (fold_left (fun jar kv => assign (fst kv) (snd kv) jar)
       (SMap.elements cookies) (_system_cookies c))
    c.

(** Lines 85-90 of [Request]: the merged maps and the formatted request. *)
Definition merged_headers (c : HTTPClient) (user_headers : Map) : Map :=
  insert_range user_headers (_system_headers c).

Definition merged_cookies (c : HTTPClient) (user_cookies : Map) : Map :=
  insert_range user_cookies (_system_cookies c).

Definition request_bytes (c : HTTPClient) (method path : string) (query_params : Map)
    (data content_type : string) (user_headers user_cookies : Map) : string :=
  FormatRequest method path query_params data content_type
    (merged_headers c user_headers) (merged_cookies c user_cookies).

Section Client.

Context {W : Type} `{Sockets W}.
Variable Split : string -> string -> list string.

Definition Connect (c : HTTPClient) : M W Z :=
  do sockfd <- call_socket AF_INET SOCK_STREAM IPPROTO_TCP;
  if (sockfd =? INVALID_SOCKET)%Z then ret INVALID_SOCKET
  else
    do r <- call_connect sockfd (_address c);
    if (r =? SOCKET_ERROR)%Z then
      run call_closesocket sockfd;
      ret INVALID_SOCKET
    else ret sockfd.

Definition Disconnect (sockfd : Z) : M W unit := call_closesocket sockfd.

(** The [while (remaining_bytes)] loop of [Send]. *)
Fixpoint Send_loop (fuel : nat) (sockfd : Z) (request : string)
    (buf_idx remaining_bytes : Z) : M W ECode :=
  match fuel with
  | O => diverge
  | S fuel' =>
      if (remaining_bytes =? 0)%Z then ret OK
      else
        do sent_bytes <-
          call_send sockfd (drop (Z.to_nat buf_idx) request) remaining_bytes;
        if (sent_bytes =? SOCKET_ERROR)%Z then ret SOCKET_SEND
        else
          Send_loop fuel' sockfd request
            (wrap_int (buf_idx + sent_bytes))
            (wrap_int (remaining_bytes - sent_bytes))
  end.

Definition Send (fuel : nat) (sockfd : Z) (request : string) : M W ECode :=
  Send_loop fuel sockfd request 0
    (wrap_int (Z.of_nat (String.length request))).

(** The [while (1)] loop of [Receive], followed by the call of
    [ParseResponse] once the loop is left by [break]. *)
Fixpoint Receive_loop (fuel : nat) (sockfd : Z) (response : HTTPResponse)
  : M W (ECode * HTTPResponse) :=
  match fuel with
  | O => diverge
  | S fuel' =>
      do r <- call_recv sockfd RECV_CAPACITY;
      match r with
      | None => ret (SOCKET_RECV, response)
      | Some buffer =>
          let recv_bytes := Z.of_nat (String.length buffer) in
          let response := set_raw (_raw response ++ c_str buffer) response in
          if negb (recv_bytes =? RECV_CAPACITY)%Z
          then lift (ParseResponse Split response)
          else Receive_loop fuel' sockfd response
      end
  end.

Definition Receive (fuel : nat) (sockfd : Z) (response : HTTPResponse)
  : M W (ECode * HTTPResponse) :=
  Receive_loop fuel sockfd (Reset response).

Definition Request (fuel : nat) (c : HTTPClient) (method path : string)
    (query_params : Map) (data content_type : string)
    (user_headers user_cookies : Map) : M W (ECode * HTTPClient) :=
  let response := empty_response in
  let request := request_bytes c method path query_params data content_type
                   user_headers user_cookies in
  do sockfd <- Connect c;
  if (sockfd =? INVALID_SOCKET)%Z then ret (SOCKET_CONNECT, c)
  else
    do err <- Send fuel sockfd request;
    if negb (ECode_eqb err OK) then
      run Disconnect sockfd;
      ret (err, c)
    else
      do er <- Receive fuel sockfd response;
      let (err, response) := er in
      if negb (ECode_eqb err OK) then
        run Disconnect sockfd;
        ret (err, c)
      else
        let c := update_cookies (GetCookies response) c in
        run Disconnect sockfd;
        ret (OK, c).

Definition ResolveHost (c : HTTPClient) : M W (ECode * HTTPClient) :=
  let err := HOST_NORESULT in
  let hints := resolve_hints in
  do rr <-
    call_getaddrinfo (_unresolved_host c) (to_string_int (_port c)) hints;
  let (r, result) := rr in
  if negb (r =? 0)%Z then ret (HOST_ADDRINFO, c)
  else
    let (err, c) := scan_candidates result err c in
    run call_freeaddrinfo result;
    ret (err, c).

End Client.

(* ------------------------------------------------------------------------- *)
(** ** Vocabulary of the statements *)

(** Concatenation of a list of strings. *)
Definition join (l : list string) : string := fold_right append EmptyString l.

Fixpoint string_forall (p : ascii -> bool) (s : string) : bool :=
  match s with
  | EmptyString => true
  | String c r => p c && string_forall p r
  end.

(** A non-empty run of characters none of which is white space. *)
Definition is_token (s : string) : Prop :=
  s <> EmptyString /\ string_forall (fun c => negb (isspace c)) s = true.

(** A non-empty run of decimal digits. *)
Definition is_number (s : string) : Prop :=
  s <> EmptyString /\ string_forall isdigit s = true.

(** Nothing, or something that starts with white space. *)
Definition ends_token (rest : string) : Prop :=
  match rest with
  | EmptyString => True
  | String c _ => isspace c = true
  end.

(** The part of [s] before its first [c] (all of [s] when there is none). *)
Definition until (c : ascii) (s : string) : string :=
  match find c s with
  | Some i => take i s
  | None => s
  end.

(** The three tests of [ResolveHost] as a proposition. *)
Definition is_usable (a : addrinfo) : Prop :=
  ai_family a = AF_INET /\ ai_socktype a = SOCK_STREAM /\ ai_protocol a = IPPROTO_TCP.

(** A [send] event that did not fail. *)
Definition send_succeeded (e : event) : bool :=
  match e with
  | EvSend _ _ _ r => negb (r =? SOCKET_ERROR)%Z
  | _ => false
  end.

(** The bytes the peer got: of each [send], the first [ret] bytes of its buffer. *)
Fixpoint transferred (evs : list event) : string :=
  match evs with
  | [] => EmptyString
  | EvSend _ buf _ r :: rest => take (Z.to_nat r) buf ++ transferred rest
  | _ :: rest => transferred rest
  end.

(** The calls a correct write loop makes on [request] from offset [off] on:
    each passes the rest of the request and its length, and the next starts
    where the previous one stopped. *)
Fixpoint send_calls (sockfd : Z) (request : string) (off : nat) (evs : list event)
  : Prop :=
  match evs with
  | [] => True
  | EvSend fd buf len r :: rest =>
      fd = sockfd /\ buf = drop off request
      /\ len = Z.of_nat (String.length request - off)
      /\ send_calls sockfd request (off + Z.to_nat r) rest
  | _ :: _ => False
  end.

Section Reads.

Context {W : Type} `{Sockets W}.

(** What the next [n] reads of [RECV_CAPACITY] bytes return, and the world
    they leave. *)
Fixpoint recv_results (n : nat) (sockfd : Z) (w : W) : list (option string) :=
  match n with
  | O => []
  | S k =>
      let (r, w') := sys_recv sockfd RECV_CAPACITY w in
      r :: recv_results k sockfd w'
  end.

Fixpoint recv_world (n : nat) (sockfd : Z) (w : W) : W :=
  match n with
  | O => w
  | S k => recv_world k sockfd (snd (sys_recv sockfd RECV_CAPACITY w))
  end.

(** Every successful write moves at least one byte and at most the count
    it was asked for. *)
Definition partial_writes : Prop :=
  forall (sockfd : Z) (buf : string) (len : Z) (w : W),
    (0 < len)%Z ->
    let r := fst (sys_send sockfd buf len w) in
    r = SOCKET_ERROR \/ (1 <= r <= len)%Z.

(** [evs] are [send] calls made one after the other from the world [w], each
    recorded with what the system returned for it, and [w'] is the world the
    last of them leaves. *)
Fixpoint sends_from (evs : list event) (w w' : W) : Prop :=
  match evs with
  | [] => w' = w
  | EvSend fd buf len r :: rest =>
      fst (sys_send fd buf len w) = r
      /\ sends_from rest (snd (sys_send fd buf len w)) w'
  | _ :: _ => False
  end.

End Reads.

(* ------------------------------------------------------------------------- *)
(** ** A scripted network, for running the client on concrete inputs *)

Record TestNet : Type := mk_net {
  net_connects : bool;              (* does [connect] succeed *)
  net_send_cap : Z;                 (* bytes taken per [send]; failure if <= 0 *)
  net_fail_after : option nat;      (* [send] fails once this many bytes are out *)
  net_wire : string;                (* what the peer has received so far *)
  net_reads : list (option string); (* what the coming [recv] calls return *)
  net_dns : Z * list addrinfo       (* what [getaddrinfo] returns *)
}.

Definition net_send (buf : string) (len : Z) (n : TestNet) : Z * TestNet :=
  let broken :=
    match net_fail_after n with
    | Some k => (k <=? String.length (net_wire n))%nat
    | None => false
    end in
  if broken || (net_send_cap n <=? 0)%Z then (SOCKET_ERROR, n)
  else
    let k := Z.min len (net_send_cap n) in
    (k, mk_net (net_connects n) (net_send_cap n) (net_fail_after n)
          (net_wire n ++ take (Z.to_nat k) buf) (net_reads n) (net_dns n)).

Definition net_recv (n : TestNet) : option string * TestNet :=
  match net_reads n with
  | [] => (Some EmptyString, n)
  | r :: rest =>
      (r, mk_net (net_connects n) (net_send_cap n) (net_fail_after n)
            (net_wire n) rest (net_dns n))
  end.

#[export] Instance TestNet_Sockets : Sockets TestNet := {|
  sys_socket := fun _ _ _ n => (3%Z, n);
  sys_connect := fun _ _ n => ((if net_connects n then 0 else SOCKET_ERROR)%Z, n);
  sys_closesocket := fun _ n => n;
  sys_send := fun _ buf len n => net_send buf len n;
  sys_recv := fun _ _ n => net_recv n;
  sys_getaddrinfo := fun _ _ _ n => (net_dns n, n);
  sys_freeaddrinfo := fun _ n => n
|}.

(** [n] bytes of padding. *)
Fixpoint filler (n : nat) : string :=
  match n with
  | O => EmptyString
  | S k => String "x" (filler k)
  end.

(** A server that takes [cap] bytes per write and answers with [reads]. *)
Definition test_net (cap : Z) (reads : list (option string)) : Sys TestNet :=
  mk_sys (mk_net true cap None EmptyString reads (0%Z, [])) [].

(** A reply that sets the cookie [session]. *)
Definition cookie_reply : string :=
  "HTTP/1.1 200 OK" ++ CRLF ++ "set-cookie: session=abc123; Path=/" ++ CRLF
  ++ "content-length: 2" ++ CRLF ++ CRLF ++ "ok".

(** The client of [example.com:80] once [cookie_reply] has been received. *)
Definition client_with_session : HTTPClient :=
  update_cookies (map_of_list [("session", "abc123")])
    (HTTPClient_new "example.com" 80).

(** A resolver that returns [dns]. *)
Definition test_dns (dns : Z * list addrinfo) : Sys TestNet :=
  mk_sys (mk_net true 1 None EmptyString [] dns) [].

(** A transport on which every call does nothing: [send] takes no byte,
    [recv] has no byte, and nothing fails. *)
#[export] Instance Stalled_Sockets : Sockets unit := {|
  sys_socket := fun _ _ _ w => (3%Z, w);
  sys_connect := fun _ _ w => (0%Z, w);
  sys_closesocket := fun _ w => w;
  sys_send := fun _ _ _ w => (0%Z, w);
  sys_recv := fun _ _ w => (Some EmptyString, w);
  sys_getaddrinfo := fun _ _ _ w => ((0%Z, []), w);
  sys_freeaddrinfo := fun _ w => w
|}.

(** A peer that fills the buffer on every read. *)
Inductive Flood : Type :=
| flood.

#[export] Instance Flood_Sockets : Sockets Flood := {|
  sys_socket := fun _ _ _ w => (3%Z, w);
  sys_connect := fun _ _ w => (0%Z, w);
  sys_closesocket := fun _ w => w;
  sys_send := fun _ _ len w => (len, w);
  sys_recv := fun _ _ w => (Some (filler 255), w);
  sys_getaddrinfo := fun _ _ _ w => ((0%Z, []), w);
  sys_freeaddrinfo := fun _ w => w
|}.

(* ------------------------------------------------------------------------- *)
(** ** Further vocabulary: traces, header blocks, bodies *)

Definition isupper (c : ascii) : bool :=
  let n := nat_of_ascii c in
  (65 <=? n)%nat && (n <=? 90)%nat.

(** No letter of [s] is in upper case. *)
Definition lower_case (s : string) : Prop :=
  string_forall (fun c => negb (isupper c)) s = true.

(** Every key of [m] is in lower case. *)
Definition lower_keys (m : Map) : Prop :=
  forall k, SMap.In k m -> lower_case k.

(** The first colon of [line] is its last character. *)
Definition colon_last (line : string) : bool :=
  match find ":" line with
  | Some pos => (String.length line =? pos + 1)%nat
  | None => false
  end.

(** The lines up to the first empty one. *)
Fixpoint header_block (lines : list string) : list string :=
  match lines with
  | [] => []
  | line :: rest =>
      if (String.length line =? 0)%nat then [] else line :: header_block rest
  end.

(** The strings of [l] with [sep] between them. *)
Fixpoint join_with (sep : string) (l : list string) : string :=
  match l with
  | [] => EmptyString
  | [a] => a
  | a :: rest => a ++ sep ++ join_with sep rest
  end.



Definition is_recv (e : event) : bool :=
  match e with
  | EvRecv _ _ _ => true
  | _ => false
  end.


Definition recv_failed (e : event) : bool :=
  match e with
  | EvRecv _ _ None => true
  | _ => false
  end.

(** A header-state line that [parse_line] takes without fault and that is
    not a [content-length] header. *)
Definition plain_header (line : string) : Prop :=
  line <> EmptyString
  /\ colon_last line = false
  /\ forall pos, find ":" line = Some pos ->
                 transform tolower (take pos line) <> "content-length".

Section Connecting.

Context {W : Type} `{Sockets W}.


End Connecting.

(* ------------------------------------------------------------------------- *)
(** ** Facts about strings *)

Lemma append_nil_r (s : string) : s ++ EmptyString = s.
Proof. induction s as [|c s IH]; simpl; congruence. Qed.

Lemma append_assoc (a b c : string) : (a ++ b) ++ c = a ++ (b ++ c).
Proof. induction a as [|x a IH]; simpl; congruence. Qed.

Lemma length_append (a b : string) :
  String.length (a ++ b) = String.length a + String.length b.
Proof. induction a as [|x a IH]; simpl; congruence. Qed.

Lemma take_drop (n : nat) (s : string) : take n s ++ drop n s = s.
Proof.
  revert s; induction n as [|n IH]; intros [|c s]; simpl; try reflexivity.
  now rewrite IH.
Qed.

Lemma drop_drop (a b : nat) (s : string) : drop b (drop a s) = drop (a + b) s.
Proof.
  revert s; induction a as [|a IH]; intros s; simpl; [reflexivity|].
  destruct s as [|c s]; [now destruct b | apply IH].
Qed.

Lemma drop_all (n : nat) (s : string) :
  String.length s <= n -> drop n s = EmptyString.
Proof.
  revert s; induction n as [|n IH]; intros [|c s]; simpl; intros Hn;
    try reflexivity; try lia.
  apply IH; lia.
Qed.

Lemma find_bound (c : ascii) (s : string) (i : nat) :
  find c s = Some i -> i < String.length s.
Proof.
  revert i; induction s as [|d s IH]; simpl; intros i; [discriminate|].
  destruct (Ascii.eqb d c).
  - intros [= <-]; lia.
  - destruct (find c s) as [j|]; simpl; [|discriminate].
    intros [= <-]. specialize (IH j eq_refl). lia.
Qed.

Lemma c_str_no_nul (s : string) : find NUL s = None -> c_str s = s.
Proof.
  induction s as [|d s IH]; simpl; [reflexivity|].
  destruct (Ascii.eqb d NUL); [discriminate|].
  destruct (find NUL s); simpl; [discriminate|].
  intros _. now rewrite IH.
Qed.

Lemma join_app (l1 l2 : list string) : join (l1 ++ l2) = join l1 ++ join l2.
Proof.
  induction l1 as [|a l1 IH]; simpl; [reflexivity|].
  unfold join in *; simpl. now rewrite IH, append_assoc.
Qed.

Lemma fold_left_append {A : Type} (f : A -> string) (l : list A) (acc : string) :
  fold_left (fun a x => a ++ f x) l acc = acc ++ join (map f l).
Proof.
  revert acc; induction l as [|x l IH]; intros acc; simpl.
  - now rewrite append_nil_r.
  - rewrite IH. unfold join; simpl. now rewrite append_assoc.
Qed.

(* ------------------------------------------------------------------------- *)
(** ** Facts about [Map] *)

Lemma find_fold_insert (k : string) (l : list (string * string)) (dst : Map) :
  SMap.find k
    (fold_left
       (fun acc kv => if SMap.mem (fst kv) acc then acc else SMap.add (fst kv) (snd kv) acc)
       l dst)
  = match SMap.find k dst with
    | Some v => Some v
    | None => findA (SMapFacts.eqb k) l
    end.
Proof.
  revert dst; induction l as [|[k' v'] l IH]; intros dst; simpl.
  - now destruct (SMap.find k dst).
  - rewrite IH. rewrite SMapFacts.mem_find_b.
    unfold SMapFacts.eqb.
    destruct (SMap.find k' dst) as [w|] eqn:Hk'.
    + destruct (SMap.find k dst) as [v|] eqn:Hk; [reflexivity|].
      destruct (String_as_OT.eq_dec k k') as [->|_]; [congruence | reflexivity].
    + rewrite SMapFacts.add_o.
      destruct (String_as_OT.eq_dec k' k) as [->|Hne].
      * rewrite Hk'. now destruct (String_as_OT.eq_dec k k).
      * destruct (SMap.find k dst); [reflexivity|].
        destruct (String_as_OT.eq_dec k k') as [->|_]; [now elim Hne | reflexivity].
Qed.

(** After [dst.insert(src.begin(), src.end())] a key of [dst] keeps its value,
    and any other key has the value it has in [src]. *)
Lemma find_insert_range (k : string) (dst src : Map) :
  SMap.find k (insert_range dst src)
  = match SMap.find k dst with
    | Some v => Some v
    | None => SMap.find k src
    end.
Proof.
  unfold insert_range. rewrite find_fold_insert.
  now rewrite <- SMapFacts.elements_o.
Qed.

Lemma key_eqb_refl (k : string) : SMapFacts.eqb k k = true.
Proof. unfold SMapFacts.eqb. now destruct (String_as_OT.eq_dec k k). Qed.

Lemma key_eqb_neq (k k' : string) : k <> k' -> SMapFacts.eqb k k' = false.
Proof. unfold SMapFacts.eqb. now destruct (String_as_OT.eq_dec k k'). Qed.

Lemma findA_not_in (k : string) (l : list (string * string)) :
  (forall v, ~ InA (@SMap.eq_key string) (k, v) l) ->
  findA (SMapFacts.eqb k) l = None.
Proof.
  induction l as [|[k' v'] l IH]; simpl; intros Hn; [reflexivity|].
  destruct (String_as_OT.eq_dec k k') as [->|Hne].
  - exfalso. apply (Hn v'). now left.
  - rewrite key_eqb_neq by assumption. apply IH.
    intros v Hin. apply (Hn v). now right.
Qed.

Lemma find_fold_assign (k : string) (l : list (string * string)) (jar : Map) :
  NoDupA (@SMap.eq_key string) l ->
  SMap.find k (fold_left (fun j kv => assign (fst kv) (snd kv) j) l jar)
  = match findA (SMapFacts.eqb k) l with
    | Some v => Some v
    | None => SMap.find k jar
    end.
Proof.
  intros Hnd; revert jar; induction Hnd as [|[k' v'] l Hnotin Hnd IH]; intros jar; simpl.
  - reflexivity.
  - rewrite IH. unfold assign. rewrite SMapFacts.add_o.
    destruct (String_as_OT.eq_dec k' k) as [->|Hne].
    + rewrite key_eqb_refl. rewrite findA_not_in; [reflexivity|].
      intros v Hin. apply Hnotin.
      rewrite InA_alt in *. destruct Hin as [y [Hy Hin]].
      exists y. split; [exact Hy | exact Hin].
    + rewrite key_eqb_neq by congruence. reflexivity.
Qed.

(** [update_cookies]: a cookie of the response replaces the jar's entry, every
    other entry of the jar stays. *)
Lemma find_update_cookies (k : string) (cookies : Map) (c : HTTPClient) :
  SMap.find k (_system_cookies (update_cookies cookies c))
  = match SMap.find k cookies with
    | Some v => Some v
    | None => SMap.find k (_system_cookies c)
    end.
Proof.
  unfold update_cookies; simpl. rewrite find_fold_assign.
  - now rewrite <- SMapFacts.elements_o.
  - apply SMap.elements_3w.
Qed.

Lemma size_zero_elements (m : Map) :
  (size m =? 0)%nat = true <-> SMap.elements m = [].
Proof.
  unfold size. rewrite SMap.cardinal_1, Nat.eqb_eq.
  destruct (SMap.elements m); simpl; split; intros; try reflexivity; discriminate.
Qed.

(* ------------------------------------------------------------------------- *)
(** ** The request formatter *)

(** The layout of a formatted request: request line, header lines, cookie
    line, content headers, blank line, body. *)
Lemma FormatRequest_layout (method path : string) (q : Map) (data ct : string)
    (headers cookies : Map) :
  FormatRequest method path q data ct headers cookies
  = request_line method path q
    ++ join (map header_line (SMap.elements headers))
    ++ (if (size cookies =? 0)%nat then EmptyString
        else "cookie: " ++ join (map cookie_entry (SMap.elements cookies)) ++ CRLF)
    ++ (if (String.length data =? 0)%nat then CRLF
        else "content-length: " ++ to_string (String.length data) ++ CRLF
             ++ "content-type: " ++ ct ++ CRLF ++ CRLF ++ data).
Proof.
  unfold FormatRequest, append_entries.
  rewrite !fold_left_append.
  destruct (size cookies =? 0)%nat; destruct (String.length data =? 0)%nat;
    rewrite ?append_assoc, ?append_nil_r; reflexivity.
Qed.

Lemma find_append_none (c : ascii) (a b : string) :
  find c a = None -> find c b = None -> find c (a ++ b) = None.
Proof.
  induction a as [|d a IH]; simpl; intros Ha Hb; [exact Hb|].
  destruct (Ascii.eqb d c); [discriminate|].
  destruct (find c a); [discriminate|]. now rewrite IH.
Qed.

(** C8: with query parameters the request line carries ["?"] followed by
    [key=value&] for every parameter in iteration order, the last [&]
    included; without parameters the formatter adds nothing between the path
    and the version, so no ["?"] is emitted. *)
Theorem query_string_keeps_trailing_ampersand :
  forall (method path : string) (q : Map) (data ct : string) (headers cookies : Map),
    (exists rest,
        FormatRequest method path q data ct headers cookies
        = method ++ " " ++ path ++ query_string_of q ++ " " ++ HTTP_VERSION ++ CRLF ++ rest)
    /\ (SMap.elements q <> [] ->
        query_string_of q = "?" ++ join (map query_entry (SMap.elements q))
        /\ exists body k v,
            query_string_of q = "?" ++ body ++ k ++ "=" ++ v ++ "&")
    /\ (SMap.elements q = [] ->
        query_string_of q = EmptyString
        /\ (find "?" method = None -> find "?" path = None ->
            find "?" (request_line method path q) = None)).
Proof.
  intros method path q data ct headers cookies. split; [|split].
  - rewrite FormatRequest_layout. unfold request_line.
    eexists. rewrite !append_assoc. reflexivity.
  - intros Hne.
    assert (Hq : query_string_of q = "?" ++ join (map query_entry (SMap.elements q))).
    { unfold query_string_of.
      destruct (size q =? 0)%nat eqn:Hs.
      - apply size_zero_elements in Hs. contradiction.
      - unfold append_entries. now rewrite fold_left_append. }
    split; [exact Hq|].
    rewrite Hq.
    destruct (exists_last Hne) as [l [[k v] Hl]].
    exists (join (map query_entry l)), k, v.
    rewrite Hl, map_app, join_app.
    change (join (map query_entry [(k, v)])) with (query_entry (k, v) ++ EmptyString).
    rewrite append_nil_r. reflexivity.
  - intros Hnil.
    assert (Hq : query_string_of q = EmptyString).
    { unfold query_string_of.
      now rewrite (proj2 (size_zero_elements q) Hnil). }
    split; [exact Hq|].
    intros Hm Hp. unfold request_line. rewrite Hq.
    repeat (apply find_append_none; try assumption); reflexivity.
Qed.

(** The spec's example: parameters a=1 and b=2. *)
Lemma query_string_example :
  query_string_of (map_of_list [("a", "1"); ("b", "2")]) = "?a=1&b=2&"
  /\ exists rest,
      FormatRequest "GET" "/search" (map_of_list [("a", "1"); ("b", "2")])
        EmptyString EmptyString (SMap.empty string) (SMap.empty string)
      = "GET /search?a=1&b=2& HTTP/1.1" ++ CRLF ++ rest.
Proof.
  destruct (query_string_keeps_trailing_ampersand "GET" "/search"
              (map_of_list [("a", "1"); ("b", "2")])
              EmptyString EmptyString (SMap.empty string) (SMap.empty string))
    as [[rest Hrest] [Hsome _]].
  split.
  - destruct Hsome as [Hq _]; [discriminate|].
    rewrite Hq. reflexivity.
  - exists rest. exact Hrest.
Defined.

(* ------------------------------------------------------------------------- *)
(** ** Merging caller-supplied and persistent headers *)

(** C1, as the code has it: [insert] never replaces an entry, so on a name
    that the caller and the client both supply the caller's value is the one
    in the merged mapping; the persistent value is used only for names the
    caller leaves out.  The value in the merged mapping is the one emitted as
    a header line of the formatted request. *)
Theorem merged_headers_caller_wins :
  forall (c : HTTPClient) (user_headers : Map) (name : string),
    SMap.find name (merged_headers c user_headers)
    = match SMap.find name user_headers with
      | Some v => Some v
      | None => SMap.find name (_system_headers c)
      end
    /\ forall (v method path : string) (q : Map) (data ct : string) (user_cookies : Map),
        SMap.find name (merged_headers c user_headers) = Some v ->
        exists pre post,
          request_bytes c method path q data ct user_headers user_cookies
          = pre ++ name ++ ": " ++ v ++ CRLF ++ post.
Proof.
  intros c uh name. split.
  - unfold merged_headers. apply find_insert_range.
  - intros v method path q data ct uc Hf.
    unfold request_bytes. rewrite FormatRequest_layout.
    apply SMap.find_2, SMap.elements_1 in Hf.
    rewrite InA_alt in Hf. destruct Hf as [[k' v'] [[Hk Hv] Hin]]. simpl in *; subst.
    apply in_split in Hin. destruct Hin as [l1 [l2 ->]].
    exists (request_line method path q ++ join (map header_line l1)).
    eexists.
    rewrite map_app, join_app.
    change (join (map header_line ((k', v') :: l2)))
      with (header_line (k', v') ++ join (map header_line l2)).
    unfold header_line at 2. simpl fst; simpl snd.
    rewrite !append_assoc. reflexivity.
Qed.

(** The client of [example.com:80] asked to send a [host] header of the
    caller's: the caller's value is merged and sent, the persistent one is not. *)
Lemma merged_headers_caller_wins_example :
  SMap.find "host" (merged_headers (HTTPClient_new "example.com" 80)
                      (map_of_list [("host", "other.test")]))
  = Some "other.test"
  /\ exists pre post,
      request_bytes (HTTPClient_new "example.com" 80) "GET" "/" (SMap.empty string)
        EmptyString EmptyString (map_of_list [("host", "other.test")]) (SMap.empty string)
      = pre ++ "host: other.test" ++ CRLF ++ post.
Proof.
  destruct (merged_headers_caller_wins (HTTPClient_new "example.com" 80)
              (map_of_list [("host", "other.test")]) "host") as [Hfind Hbytes].
  split.
  - rewrite Hfind. reflexivity.
  - apply (Hbytes "other.test" "GET" "/" (SMap.empty string) EmptyString EmptyString
             (SMap.empty string)).
    rewrite Hfind. reflexivity.
Defined.

(** C1 as stated fails: the persistent [host] header does not win. *)
Lemma persistent_header_does_not_win :
  let c := HTTPClient_new "example.com" 80 in
  let user_headers := map_of_list [("host", "other.test")] in
  SMap.find "host" (_system_headers c) = Some "example.com:80"
  /\ SMap.find "host" user_headers = Some "other.test"
  /\ SMap.find "host" (merged_headers c user_headers) <> Some "example.com:80"
  /\ request_bytes c "GET" "/" (SMap.empty string) EmptyString EmptyString
       user_headers (SMap.empty string)
     = "GET / HTTP/1.1" ++ CRLF ++ "host: other.test" ++ CRLF ++ CRLF.
Proof.
  repeat split; try reflexivity.
  vm_compute. discriminate.
Qed.

(* ------------------------------------------------------------------------- *)
(** ** Tokens of the status line *)

Lemma skip_ws_spaces (ws s : string) :
  string_forall isspace ws = true -> skip_ws (ws ++ s) = skip_ws s.
Proof.
  induction ws as [|c ws IH]; simpl; [reflexivity|].
  intros Hc. apply andb_prop in Hc. destruct Hc as [Hc Hws].
  rewrite Hc. now apply IH.
Qed.

Lemma skip_ws_token (tok rest : string) :
  is_token tok -> skip_ws (tok ++ rest) = tok ++ rest.
Proof.
  intros [Hne Hall]. destruct tok as [|c t]; [contradiction|].
  simpl in *. apply andb_prop in Hall. destruct Hall as [Hc _].
  apply negb_true_iff in Hc. now rewrite Hc.
Qed.

Lemma span_prefix (p : ascii -> bool) (a rest : string) :
  string_forall p a = true ->
  match rest with EmptyString => True | String c _ => p c = false end ->
  span p (a ++ rest) = (a, rest).
Proof.
  intros Ha Hrest. induction a as [|c a IH]; simpl in *.
  - destruct rest as [|d r]; [reflexivity|]. simpl. now rewrite Hrest.
  - apply andb_prop in Ha. destruct Ha as [Hc Ha].
    rewrite Hc, (IH Ha). reflexivity.
Qed.

Lemma isspace_not_digit (c : ascii) : isspace c = true -> isdigit c = false.
Proof.
  unfold isspace, isdigit. intros Hs.
  apply orb_prop in Hs. apply andb_false_iff.
  destruct Hs as [Hs|Hs].
  - apply Nat.eqb_eq in Hs. left. apply Nat.leb_gt. lia.
  - apply andb_prop in Hs. destruct Hs as [_ Hs]. apply Nat.leb_le in Hs.
    left. apply Nat.leb_gt. lia.
Qed.

Lemma isdigit_not_space (c : ascii) : isdigit c = true -> isspace c = false.
Proof.
  intros Hd. destruct (isspace c) eqn:Hs; [|reflexivity].
  apply isspace_not_digit in Hs. congruence.
Qed.

Lemma digits_value_nonneg (s : string) (acc : Z) :
  string_forall isdigit s = true -> (0 <= acc)%Z -> (0 <= digits_value acc s)%Z.
Proof.
  revert acc; induction s as [|c s IH]; cbn [digits_value string_forall];
    intros acc Hs Hacc; [exact Hacc|].
  apply andb_prop in Hs. destruct Hs as [Hc Hs].
  apply IH; [exact Hs|].
  unfold isdigit in Hc. cbv zeta in Hc.
  apply andb_prop in Hc. destruct Hc as [Hlo _].
  apply Nat.leb_le in Hlo. unfold digit_value.
  assert (48 <= Z.of_nat (nat_of_ascii c))%Z by lia. lia.
Qed.

(** [ss >> str] on white space followed by a token reads exactly the token. *)
Lemma extract_string_token (ws tok rest cur : string) :
  string_forall isspace ws = true -> is_token tok -> ends_token rest ->
  extract_string (mk_ss (ws ++ tok ++ rest) false) cur = (tok, mk_ss rest false).
Proof.
  intros Hws Htok Hrest. unfold extract_string. simpl ss_fail; simpl ss_rest.
  rewrite (skip_ws_spaces _ _ Hws), (skip_ws_token _ _ Htok).
  destruct Htok as [Hne Hall].
  assert (Hspan : span (fun c => negb (isspace c)) (tok ++ rest) = (tok, rest)).
  { apply span_prefix; [exact Hall|].
    destruct rest as [|d r]; [exact I|]. simpl in Hrest. now rewrite Hrest. }
  destruct tok as [|c t]; [contradiction|].
  change (String c t ++ rest) with (String c (t ++ rest)) in *.
  cbv beta iota. now rewrite Hspan.
Qed.

(** [ss >> n] on white space followed by digits that fit an [int]. *)
Lemma extract_int_number (ws ds rest : string) (cur : Z) :
  string_forall isspace ws = true -> is_number ds -> ends_token rest ->
  (digits_value 0 ds <= INT_MAX)%Z ->
  extract_int (mk_ss (ws ++ ds ++ rest) false) cur
  = (digits_value 0 ds, mk_ss rest false).
Proof.
  intros Hws [Hne Hall] Hrest Hmax. unfold extract_int. simpl ss_fail; simpl ss_rest.
  rewrite (skip_ws_spaces _ _ Hws).
  pose proof (digits_value_nonneg ds 0 Hall (Z.le_refl 0)) as Hpos.
  destruct ds as [|c t]; [contradiction|].
  assert (Hc : isdigit c = true) by (simpl in Hall; now apply andb_prop in Hall).
  assert (Hsp : isspace c = false) by now apply isdigit_not_space.
  change ((String c t) ++ rest) with (String c (t ++ rest)).
  cbn [skip_ws]. rewrite Hsp.
  assert (Hspan : span isdigit (String c (t ++ rest)) = (String c t, rest)).
  { change (String c (t ++ rest)) with ((String c t) ++ rest).
    apply span_prefix; [exact Hall|].
    destruct rest as [|d r]; [exact I|]. simpl in Hrest.
    now apply isspace_not_digit. }
  destruct c as [[] [] [] [] [] [] [] []]; try discriminate Hc;
    cbv beta iota zeta; rewrite Hspan; cbv beta iota zeta;
    (destruct (digits_value 0 _ >? INT_MAX)%Z eqn:Hgt;
     [ apply Z.gtb_lt in Hgt; lia | ]);
    (destruct (digits_value 0 _ <? INT_MIN)%Z eqn:Hlt;
     [ apply Z.ltb_lt in Hlt; unfold INT_MIN in Hlt; lia | reflexivity ]).
Qed.

(* ------------------------------------------------------------------------- *)
(** ** The response parser, line by line *)

Lemma drop_0 (s : string) : drop 0 s = s.
Proof. now destruct s. Qed.

Lemma substr_in_range (s : string) (pos n : nat) :
  pos <= String.length s -> substr s pos n = Ret (take n (drop pos s)).
Proof.
  intros Hle. unfold substr. now rewrite (proj2 (Nat.leb_le _ _) Hle).
Qed.

Lemma substr_from_in_range (s : string) (pos : nat) :
  pos <= String.length s -> substr_from s pos = Ret (drop pos s).
Proof.
  intros Hle. unfold substr_from. now rewrite (proj2 (Nat.leb_le _ _) Hle).
Qed.

Lemma substr_from_out_of_range (s : string) (pos : nat) :
  String.length s < pos -> substr_from s pos = Throws out_of_range.
Proof.
  intros Hlt. unfold substr_from. now rewrite (proj2 (Nat.leb_gt _ _) Hlt).
Qed.

(** The branch of [parse_line] that handles a [set-cookie] value. *)
Lemma cookie_branch_returns (val : string) (cl : Z) (resp : HTTPResponse) (i : nat) :
  find "=" val = Some i ->
  (try cookie_key <- substr val 0 i;
   try cookie_val <- substr_from val (i + 1);
   try cookie_val <-
     match find ";" cookie_val with
     | Some pos => erase cookie_val pos
     | None => Ret cookie_val
     end;
   Ret (mk_parser HEADERS cl
          (set_cookies (assign cookie_key cookie_val (_cookies resp)) resp)))%result
  = Ret (mk_parser HEADERS cl
           (set_cookies
              (assign (take i val) (until ";" (drop (S i) val)) (_cookies resp)) resp)).
Proof.
  intros Hi. pose proof (find_bound _ _ _ Hi) as Hlt.
  rewrite substr_in_range by lia.
  rewrite substr_from_in_range by lia.
  replace (i + 1) with (S i) by lia.
  cbn [rbind]. rewrite drop_0. unfold until.
  destruct (find ";" (drop (S i) val)) as [j|] eqn:Hj; [|reflexivity].
  pose proof (find_bound _ _ _ Hj) as Hjlt.
  unfold erase. rewrite (proj2 (Nat.leb_le _ _)) by lia. reflexivity.
Qed.

(** A header-state line with a colon at [pos] and room for the value. *)
Lemma header_line_in_range (cl : Z) (resp : HTTPResponse) (line : string) (pos : nat) :
  find ":" line = Some pos -> pos + 2 <= String.length line ->
  parse_line (mk_parser HEADERS cl resp) line
  = let key := transform tolower (take pos line) in
    let val := drop (pos + 2) line in
    if negb (String.eqb key "set-cookie") then
      Ret (mk_parser HEADERS
             (if String.eqb key "content-length" then to_size_t (atoi val) else cl)
             (set_headers (assign key val (_headers resp)) resp))
    else
      match find "=" val with
      | None => Ret (mk_parser HEADERS cl resp)
      | Some i =>
          Ret (mk_parser HEADERS cl
                 (set_cookies
                    (assign (take i val) (until ";" (drop (S i) val)) (_cookies resp))
                    resp))
      end.
Proof.
  intros Hpos Hlen. unfold parse_line. cbn [p_state p_response p_content_length].
  pose proof (find_bound _ _ _ Hpos) as Hlt.
  destruct (String.length line =? 0)%nat eqn:H0; [apply Nat.eqb_eq in H0; lia|].
  rewrite Hpos.
  rewrite substr_in_range by lia. rewrite substr_from_in_range by lia.
  cbn [rbind]. rewrite drop_0. cbv zeta.
  destruct (negb (String.eqb (transform tolower (take pos line)) "set-cookie")).
  - destruct (String.eqb (transform tolower (take pos line)) "content-length");
      reflexivity.
  - destruct (find "=" (drop (pos + 2) line)) as [i|] eqn:Hi; [|reflexivity].
    now apply cookie_branch_returns.
Qed.

(** Once the status line is consumed the status fields are never written. *)
Lemma parse_line_keeps_status (p p' : parser) (line : string) :
  p_state p <> STATUS -> parse_line p line = Ret p' ->
  p_state p' <> STATUS
  /\ _protover (p_response p') = _protover (p_response p)
  /\ _code (p_response p') = _code (p_response p)
  /\ _status (p_response p') = _status (p_response p).
Proof.
  destruct p as [st cl resp]. cbn [p_state p_response].
  intros Hst. destruct st; [contradiction| |].
  - destruct (String.length line =? 0)%nat eqn:H0.
    + unfold parse_line. cbn [p_state p_response p_content_length]. rewrite H0.
      intros [= <-]. cbn. repeat split; discriminate.
    + destruct (find ":" line) as [pos|] eqn:Hpos.
      * destruct (Nat.le_gt_cases (pos + 2) (String.length line)) as [Hle|Hgt].
        -- rewrite (header_line_in_range _ _ _ _ Hpos Hle). cbv zeta.
           destruct (negb _).
           ++ intros [= <-]. cbn. repeat split; discriminate.
           ++ destruct (find "=" _); intros [= <-]; cbn; repeat split; discriminate.
        -- unfold parse_line. cbn [p_state p_response p_content_length].
           rewrite H0, Hpos.
           pose proof (find_bound _ _ _ Hpos).
           rewrite substr_in_range by lia. rewrite substr_from_out_of_range by lia.
           discriminate.
      * unfold parse_line. cbn [p_state p_response p_content_length].
        rewrite H0, Hpos. intros [= <-]. cbn. repeat split; discriminate.
  - unfold parse_line. cbn [p_state p_response p_content_length].
    intros [= <-]. cbn. repeat split; discriminate.
Qed.

Lemma parse_lines_keeps_status (lines : list string) (p p' : parser) :
  p_state p <> STATUS -> parse_lines p lines = Ret p' ->
  _protover (p_response p') = _protover (p_response p)
  /\ _code (p_response p') = _code (p_response p)
  /\ _status (p_response p') = _status (p_response p).
Proof.
  revert p; induction lines as [|line lines IH]; intros p Hst; cbn [parse_lines].
  - intros [= <-]. auto.
  - destruct (parse_line p line) as [q| |] eqn:Hq; cbn [rbind]; try discriminate.
    intros Hrest.
    destruct (parse_line_keeps_status _ _ _ Hst Hq) as [Hq1 [Hq2 [Hq3 Hq4]]].
    destruct (IH q Hq1 Hrest) as [H1 [H2 H3]].
    repeat split; congruence.
Qed.

(** C2, as the code has it: [>>] reads one white-space delimited token, so of
    a status line [version SP code SP reason] the parser stores the version,
    the numeric code, and the first word of the reason only; what follows
    that word is dropped.  The fields stay as set whatever lines follow. *)
Theorem status_line_stores_three_tokens :
  forall (ver code word rest : string) (cl : Z) (resp : HTTPResponse),
    is_token ver -> is_number code -> (digits_value 0 code <= INT_MAX)%Z ->
    is_token word -> ends_token rest ->
    parse_line (mk_parser STATUS cl resp) (ver ++ " " ++ code ++ " " ++ word ++ rest)
    = Ret (mk_parser HEADERS cl
             (set_status_line ver (digits_value 0 code) word resp))
    /\ forall (Split : string -> string -> list string) (more : list string)
         (e : ECode) (r : HTTPResponse),
        Split (_raw resp) CRLF = (ver ++ " " ++ code ++ " " ++ word ++ rest) :: more ->
        ParseResponse Split resp = Ret (e, r) ->
        _protover r = ver /\ _code r = digits_value 0 code /\ _status r = word.
Proof.
  intros ver code word rest cl resp Hver Hcode Hmax Hword Hrest.
  assert (Hstep : forall cl',
    parse_line (mk_parser STATUS cl' resp) (ver ++ " " ++ code ++ " " ++ word ++ rest)
    = Ret (mk_parser HEADERS cl'
             (set_status_line ver (digits_value 0 code) word resp))).
  { intros cl'. unfold parse_line. cbn [p_state p_response p_content_length].
    rewrite (extract_string_token EmptyString ver (" " ++ code ++ " " ++ word ++ rest));
      [| reflexivity | exact Hver | reflexivity ].
    rewrite (extract_int_number " " code (" " ++ word ++ rest));
      [| reflexivity | exact Hcode | reflexivity | exact Hmax ].
    rewrite (extract_string_token " " word rest);
      [| reflexivity | exact Hword | exact Hrest ].
    reflexivity. }
  split; [apply Hstep|].
  intros Split more e r Hsplit. unfold ParseResponse. rewrite Hsplit.
  cbn [parse_lines]. rewrite Hstep. cbn [rbind].
  destruct (parse_lines _ more) as [q| |] eqn:Hq; cbn [rbind]; try discriminate.
  intros [= <- <-].
  apply parse_lines_keeps_status in Hq; [|discriminate].
  cbn in Hq. exact Hq.
Qed.

(** The status line [HTTP/1.1 404 Not Found]: the status text stored is [Not]. *)
Lemma status_line_stores_three_tokens_example :
  parse_line (mk_parser STATUS 0 empty_response) "HTTP/1.1 404 Not Found"
  = Ret (mk_parser HEADERS 0 (set_status_line "HTTP/1.1" 404 "Not" empty_response)).
Proof.
  apply (proj1 (status_line_stores_three_tokens
                  "HTTP/1.1" "404" "Not" " Found" 0 empty_response
                  ltac:(split; [discriminate | reflexivity])
                  ltac:(split; [discriminate | reflexivity])
                  ltac:(vm_compute; discriminate)
                  ltac:(split; [discriminate | reflexivity])
                  ltac:(reflexivity))).
Defined.

(** C2 as stated fails: of the reason [Not Found] only [Not] is stored. *)
Lemma status_text_is_first_word_only :
  exists r,
    ParseResponse Split_CRLF
      (set_raw ("HTTP/1.1 404 Not Found" ++ CRLF ++ CRLF) empty_response)
    = Ret (OK, r)
    /\ _protover r = "HTTP/1.1" /\ _code r = 404%Z
    /\ _status r = "Not" /\ _status r <> "Not Found".
Proof.
  eexists. split; [vm_compute; reflexivity|].
  repeat split; discriminate.
Qed.

(** C3, as the code has it: after a body line is appended, CRLF is appended
    exactly when the body accumulated so far is shorter than content-length,
    whatever the two bytes make of its length.  In particular a body one byte
    short of content-length gets the CRLF and ends up one byte over. *)
Theorem body_line_appends_crlf_while_short :
  forall (cl : Z) (resp : HTTPResponse) (line : string),
    exists p' data,
      parse_line (mk_parser BODY cl resp) line = Ret p'
      /\ p' = mk_parser BODY cl (set_data data resp)
      /\ _data (p_response p') = data
      /\ ((Z.of_nat (String.length (_data resp ++ line)) < cl)%Z ->
          _data (p_response p') = (_data resp ++ line) ++ CRLF)
      /\ ((cl <= Z.of_nat (String.length (_data resp ++ line)))%Z ->
          _data (p_response p') = _data resp ++ line)
      /\ (Z.of_nat (String.length (_data resp ++ line)) = (cl - 1)%Z ->
          Z.of_nat (String.length (_data (p_response p'))) = (cl + 1)%Z).
Proof.
  intros cl resp line. unfold parse_line. cbn [p_state p_response p_content_length].
  destruct (Z.of_nat (String.length (_data resp ++ line)) <? cl)%Z eqn:Hlt.
  - apply Z.ltb_lt in Hlt. do 2 eexists. split; [reflexivity|].
    split; [reflexivity|]. cbn [p_response _data set_data].
    repeat split; intros; try lia.
    rewrite length_append. simpl String.length. lia.
  - apply Z.ltb_ge in Hlt. do 2 eexists. split; [reflexivity|].
    split; [reflexivity|]. cbn [p_response _data set_data].
    repeat split; intros; lia.
Qed.

(** C3 as stated fails.  With content-length 6 and the body line [abcd], the
    two bytes make the body reach content-length and are appended; with
    content-length 5 the body is one byte short, and they are appended too. *)
Lemma crlf_is_appended_up_to_content_length :
  (exists p',
      parse_line (mk_parser BODY 6 empty_response) "abcd" = Ret p'
      /\ _data (p_response p') = "abcd" ++ CRLF
      /\ Z.of_nat (String.length (_data (p_response p'))) = 6%Z)
  /\ Z.of_nat (String.length "abcd") = (5 - 1)%Z
  /\ (exists p',
         parse_line (mk_parser BODY 5 empty_response) "abcd" = Ret p'
         /\ _data (p_response p') = "abcd" ++ CRLF
         /\ _data (p_response p') <> "abcd").
Proof.
  split; [|split]; [ | reflexivity | ].
  - eexists. split; [reflexivity|]. split; reflexivity.
  - eexists. split; [reflexivity|]. split; [reflexivity | discriminate].
Qed.

(** C4, as the code has it: a header-state line named [set-cookie] (in any
    letter case) whose colon is followed by at least one character leaves the
    headers mapping as it is.  When its value holds an ["="], the part of the
    value before the first ["="] names the cookie, and what follows the
    ["="], cut at its first [";"], is stored under that name; a value without
    ["="] stores nothing at all. *)
Theorem set_cookie_line_stores_cookie :
  forall (cl : Z) (resp : HTTPResponse) (line : string) (pos : nat),
    find ":" line = Some pos ->
    transform tolower (take pos line) = "set-cookie" ->
    pos + 2 <= String.length line ->
    exists p',
      parse_line (mk_parser HEADERS cl resp) line = Ret p'
      /\ p_state p' = HEADERS
      /\ _headers (p_response p') = _headers resp
      /\ match find "=" (drop (pos + 2) line) with
         | Some i =>
             let name := take i (drop (pos + 2) line) in
             let value := until ";" (drop (S i) (drop (pos + 2) line)) in
             _cookies (p_response p') = assign name value (_cookies resp)
             /\ SMap.find name (_cookies (p_response p')) = Some value
         | None => _cookies (p_response p') = _cookies resp
         end.
Proof.
  intros cl resp line pos Hpos Hkey Hlen.
  rewrite (header_line_in_range _ _ _ _ Hpos Hlen). cbv zeta.
  rewrite Hkey. cbn [String.eqb Ascii.eqb Bool.eqb negb].
  change (String.eqb "set-cookie" "set-cookie") with true. cbn [negb].
  destruct (find "=" (drop (pos + 2) line)) as [i|] eqn:Hi.
  - eexists. split; [reflexivity|].
    cbn [p_state p_response _headers _cookies set_cookies]. repeat split.
    unfold assign. rewrite SMapFacts.add_eq_o; reflexivity.
  - eexists. split; [reflexivity|].
    cbn [p_state p_response _headers _cookies set_cookies]. repeat split.
Qed.

(** The spec's example line, with its name in mixed case. *)
Lemma set_cookie_line_example :
  exists p',
    parse_line (mk_parser HEADERS 0 empty_response) "Set-Cookie: session=abc123; Path=/"
    = Ret p'
    /\ SMap.elements (_cookies (p_response p')) = [("session", "abc123")]
    /\ SMap.elements (_headers (p_response p')) = [].
Proof.
  destruct (set_cookie_line_stores_cookie 0 empty_response
              "Set-Cookie: session=abc123; Path=/" 10
              eq_refl eq_refl ltac:(vm_compute; lia))
    as [p' [Hrun [_ [Hheaders Hcookies]]]].
  exists p'. split; [exact Hrun|].
  cbv zeta in Hcookies. destruct Hcookies as [Hjar _].
  rewrite Hjar, Hheaders. split; reflexivity.
Defined.

(** C4 as stated fails: a [set-cookie] line whose value has no ["="] stores
    no cookie (and no header), so the cookie mapping gains nothing. *)
Lemma set_cookie_without_equals_stores_nothing :
  exists p',
    parse_line (mk_parser HEADERS 0 empty_response) "set-cookie: novalue" = Ret p'
    /\ find "=" "novalue" = None
    /\ SMap.elements (_cookies (p_response p')) = []
    /\ SMap.find "novalue" (_cookies (p_response p')) = None
    /\ SMap.elements (_headers (p_response p')) = [].
Proof.
  eexists. split; [reflexivity|]. repeat split.
Qed.

(** C10 fails on the code: [line.substr(pos + 2)] throws [std::out_of_range]
    exactly when the first colon of a header-state line is its last
    character, as in the line [x:]; every other line is parsed without fault. *)
Theorem header_line_throws_iff_colon_is_last :
  (forall (cl : Z) (resp : HTTPResponse) (line : string),
      parse_line (mk_parser HEADERS cl resp) line = Throws out_of_range
      <-> exists pos, find ":" line = Some pos /\ String.length line = pos + 1)
  /\ parse_line (mk_parser HEADERS 0 empty_response) "x:" = Throws out_of_range
  /\ ParseResponse Split_CRLF
       (set_raw ("HTTP/1.1 200 OK" ++ CRLF ++ "x:" ++ CRLF ++ CRLF) empty_response)
     = Throws out_of_range.
Proof.
  split; [|split; reflexivity].
  intros cl resp line. split.
  - intros Hthrow.
    destruct (find ":" line) as [pos|] eqn:Hpos.
    + exists pos. split; [reflexivity|].
      pose proof (find_bound _ _ _ Hpos) as Hlt.
      destruct (Nat.le_gt_cases (pos + 2) (String.length line)) as [Hle|Hgt]; [|lia].
      rewrite (header_line_in_range _ _ _ _ Hpos Hle) in Hthrow. cbv zeta in Hthrow.
      destruct (negb _) in Hthrow; [discriminate|].
      destruct (find "=" _) in Hthrow; discriminate.
    + unfold parse_line in Hthrow. cbn [p_state p_response p_content_length] in Hthrow.
      rewrite Hpos in Hthrow.
      destruct (String.length line =? 0)%nat in Hthrow; discriminate.
  - intros [pos [Hpos Hlen]].
    unfold parse_line. cbn [p_state p_response p_content_length].
    destruct (String.length line =? 0)%nat eqn:H0; [apply Nat.eqb_eq in H0; lia|].
    rewrite Hpos. rewrite substr_in_range by lia.
    rewrite substr_from_out_of_range by lia. reflexivity.
Qed.

(* ------------------------------------------------------------------------- *)
(** ** The write loop *)

Lemma wrap_int_small (z : Z) : (INT_MIN <= z <= INT_MAX)%Z -> wrap_int z = z.
Proof.
  unfold wrap_int, INT_MIN, INT_MAX. intros Hz.
  rewrite Z.mod_small; lia.
Qed.

Section WriteLoop.

Context {W : Type} `{Sockets W}.

Lemma Send_loop_spec (sockfd : Z) (request : string) :
  partial_writes ->
  (Z.of_nat (String.length request) <= INT_MAX)%Z ->
  forall (fuel off : nat) (s : Sys W),
    off <= String.length request ->
    String.length request - off < fuel ->
    exists err s' evs,
      Send_loop fuel sockfd request (Z.of_nat off)
        (Z.of_nat (String.length request - off)) s = Ret (err, s')
      /\ trace s' = (trace s ++ evs)%list
      /\ send_calls sockfd request off evs
      /\ sends_from evs (world s) (world s')
      /\ ((err = OK /\ forallb send_succeeded evs = true
           /\ transferred evs = drop off request)
          \/ (err = SOCKET_SEND
              /\ exists evs0 buf len,
                  evs = (evs0 ++ [EvSend sockfd buf len SOCKET_ERROR])%list
                  /\ forallb send_succeeded evs0 = true)).
Proof.
  intros Hpartial Hmax.
  induction fuel as [|fuel IH]; intros off s Hoff Hfuel; [lia|].
  cbn [Send_loop].
  destruct (Z.of_nat (String.length request - off) =? 0)%Z eqn:Hrem.
  - apply Z.eqb_eq in Hrem.
    exists OK, s, []. rewrite app_nil_r.
    split; [reflexivity|]. split; [reflexivity|]. split; [exact I|].
    split; [reflexivity|]. left. repeat split.
    cbn [transferred]. symmetry. apply drop_all. lia.
  - apply Z.eqb_neq in Hrem.
    unfold bind at 1. unfold call_send.
    rewrite Nat2Z.id.
    pose proof (Hpartial sockfd (drop off request)
                  (Z.of_nat (String.length request - off)) (world s)) as Hr.
    destruct (sys_send sockfd (drop off request)
                (Z.of_nat (String.length request - off)) (world s)) as [r w] eqn:Hsend.
    cbn [fst] in Hr. specialize (Hr ltac:(lia)).
    destruct (r =? SOCKET_ERROR)%Z eqn:Herr.
    + apply Z.eqb_eq in Herr. subst r.
      eexists SOCKET_SEND, _, [_]. split; [reflexivity|].
      cbn [trace]. split; [reflexivity|]. split; [|split].
      * cbn [send_calls]. repeat split.
      * cbn [sends_from world]. rewrite Hsend. split; reflexivity.
      * right. split; [reflexivity|]. exists [], (drop off request),
          (Z.of_nat (String.length request - off)). split; reflexivity.
    + apply Z.eqb_neq in Herr. destruct Hr as [Hr|Hr]; [contradiction|].
      unfold INT_MAX in Hmax.
      rewrite (wrap_int_small (Z.of_nat off + r))
        by (unfold INT_MIN, INT_MAX; lia).
      rewrite (wrap_int_small (Z.of_nat (String.length request - off) - r))
        by (unfold INT_MIN, INT_MAX; lia).
      replace (Z.of_nat off + r)%Z with (Z.of_nat (off + Z.to_nat r)) by lia.
      replace (Z.of_nat (String.length request - off) - r)%Z
        with (Z.of_nat (String.length request - (off + Z.to_nat r))) by lia.
      destruct (IH (off + Z.to_nat r)
                  (mk_sys w (trace s ++ [EvSend sockfd (drop off request)
                     (Z.of_nat (String.length request - off)) r])%list)
                  ltac:(lia) ltac:(lia))
        as [err [s' [evs [Hrun [Htrace [Hcalls [Hworld Hres]]]]]]].
      exists err, s', (EvSend sockfd (drop off request)
                         (Z.of_nat (String.length request - off)) r :: evs).
      split; [exact Hrun|]. split.
      { rewrite Htrace. cbn [trace]. now rewrite <- app_assoc. }
      split.
      { cbn [send_calls]. repeat split. exact Hcalls. }
      split.
      { cbn [sends_from]. rewrite Hsend. split; [reflexivity | exact Hworld]. }
      destruct Hres as [[-> [Hall Htr]]|[-> [evs0 [buf [len [-> Hall]]]]]].
      * left. split; [reflexivity|]. split.
        -- cbn [forallb send_succeeded]. rewrite Hall.
           rewrite (proj2 (Z.eqb_neq _ _) Herr). reflexivity.
        -- cbn [transferred]. rewrite Htr.
           rewrite <- drop_drop. apply take_drop.
      * right. split; [reflexivity|].
        exists (EvSend sockfd (drop off request)
                  (Z.of_nat (String.length request - off)) r :: evs0), buf, len.
        split; [reflexivity|].
        cbn [forallb send_succeeded]. rewrite Hall.
        rewrite (proj2 (Z.eqb_neq _ _) Herr). reflexivity.
Qed.

(** C6, as the code has it: for a request whose size fits the [int] it is
    cast to, and over a transport whose successful writes move between one
    byte and the count asked for, [Send] returns.  The [send] calls it makes
    are the ones recorded, each with the result the system gave and leaving
    the world that [Send] leaves; every call passes the unsent rest of the
    request and its length; on [OK] no call failed and the pieces that went
    out make up the whole request; on [SOCKET_SEND] the failed write is the
    last call made. *)
Theorem Send_transfers_whole_request :
  forall (fuel : nat) (sockfd : Z) (request : string) (s : Sys W),
    partial_writes ->
    (Z.of_nat (String.length request) <= INT_MAX)%Z ->
    String.length request < fuel ->
    exists err s' evs,
      Send fuel sockfd request s = Ret (err, s')
      /\ trace s' = (trace s ++ evs)%list
      /\ sends_from evs (world s) (world s')
      /\ send_calls sockfd request 0 evs
      /\ ((err = OK /\ forallb send_succeeded evs = true
           /\ transferred evs = request
           /\ String.length (transferred evs) = String.length request)
          \/ (err = SOCKET_SEND
              /\ exists evs0 buf len,
                  evs = (evs0 ++ [EvSend sockfd buf len SOCKET_ERROR])%list
                  /\ forallb send_succeeded evs0 = true)).
Proof.
  intros fuel sockfd request s Hpartial Hmax Hfuel.
  unfold Send.
  rewrite wrap_int_small by (unfold INT_MIN, INT_MAX in *; lia).
  destruct (Send_loop_spec sockfd request Hpartial Hmax fuel 0 s
              ltac:(lia) ltac:(lia))
    as [err [s' [evs [Hrun [Htrace [Hcalls [Hworld Hres]]]]]]].
  rewrite Nat.sub_0_r in Hrun. change (Z.of_nat 0) with 0%Z in Hrun.
  exists err, s', evs. repeat (split; [assumption|]).
  destruct Hres as [[-> [Hall Htr]]|Hfail].
  - left. rewrite drop_0 in Htr. rewrite Htr. auto.
  - right. exact Hfail.
Qed.

End WriteLoop.

Lemma TestNet_partial_writes : @partial_writes TestNet TestNet_Sockets.
Proof.
  intros sockfd buf len w Hlen. cbn. unfold net_send.
  destruct (_ || _) eqn:Hbad; cbn [fst].
  - now left.
  - right. apply orb_false_iff in Hbad. destruct Hbad as [_ Hcap].
    apply Z.leb_gt in Hcap. lia.
Qed.

(** A transport that takes three bytes per call: the peer ends up with the
    whole request, through six calls. *)
Lemma Send_three_bytes_per_call :
  exists s' evs,
    Send 32 3 ("GET / HTTP/1.1" ++ CRLF ++ CRLF) (test_net 3 []) = Ret (OK, s')
    /\ net_wire (world s') = "GET / HTTP/1.1" ++ CRLF ++ CRLF
    /\ trace s' = evs
    /\ List.length evs = 6
    /\ sends_from evs (world (test_net 3 [])) (world s')
    /\ transferred evs = "GET / HTTP/1.1" ++ CRLF ++ CRLF.
Proof.
  destruct (Send_transfers_whole_request 32 3 ("GET / HTTP/1.1" ++ CRLF ++ CRLF)
              (test_net 3 []) TestNet_partial_writes
              ltac:(vm_compute; discriminate) ltac:(vm_compute; lia))
    as [err [s' [evs [Hrun [Htrace [Hworld [_ Hres]]]]]]].
  assert (Hc : exists s0,
             Send 32 3 ("GET / HTTP/1.1" ++ CRLF ++ CRLF) (test_net 3 []) = Ret (OK, s0)
             /\ net_wire (world s0) = "GET / HTTP/1.1" ++ CRLF ++ CRLF
             /\ List.length (trace s0) = 6)
    by (eexists; split; [vm_compute; reflexivity | split; reflexivity]).
  destruct Hc as [s0 [Hc [Hwire Hsix]]].
  rewrite Hc in Hrun. injection Hrun as <- <-.
  destruct Hres as [[_ [_ [Htransferred _]]]|[Hfail _]]; [|discriminate Hfail].
  exists s0, evs. cbn [test_net trace app] in Htrace.
  split; [exact Hc|]. split; [exact Hwire|]. split; [exact Htrace|].
  split; [now rewrite <- Htrace|]. split; [exact Hworld | exact Htransferred].
Defined.

Lemma length_filler (n : nat) : String.length (filler n) = n.
Proof. induction n as [|n IH]; cbn [filler String.length]; congruence. Qed.

(** C6 as stated fails on a request whose size does not fit [int]: the size
    of a request of 2^32 bytes is cast to 0, so over a transport that takes
    three bytes per write [Send] returns [OK] at once, having made no call
    and sent no byte. *)
Lemma Send_of_two_pow_32_bytes_sends_nothing :
  @partial_writes TestNet TestNet_Sockets
  /\ Z.of_nat (String.length (filler (Z.to_nat 4294967296))) = 4294967296%Z
  /\ Send 1 3 (filler (Z.to_nat 4294967296)) (test_net 3 [])
     = Ret (OK, test_net 3 [])
  /\ trace (test_net 3 []) = []
  /\ net_wire (world (test_net 3 [])) = EmptyString.
Proof.
  split; [exact TestNet_partial_writes|].
  split; [rewrite length_filler; apply Z2Nat.id; discriminate|].
  split; [|split; reflexivity].
  unfold Send. rewrite length_filler.
  rewrite Z2Nat.id by discriminate.
  change (wrap_int 4294967296) with 0%Z.
  reflexivity.
Qed.

(** The same run, computed: six calls, and the peer has the whole request. *)
Example Send_three_bytes_run :
  match Send 32 3 ("GET / HTTP/1.1" ++ CRLF ++ CRLF) (test_net 3 []) with
  | Ret (err, s') =>
      err = OK /\ net_wire (world s') = "GET / HTTP/1.1" ++ CRLF ++ CRLF
      /\ List.length (trace s') = 6
  | _ => False
  end.
Proof. vm_compute. repeat split. Qed.

(* ------------------------------------------------------------------------- *)
(** ** The read loop *)

Lemma set_raw_twice (a b : string) (r : HTTPResponse) :
  set_raw a (set_raw b r) = set_raw a r.
Proof. reflexivity. Qed.

Lemma join_c_str_no_nul (chunks : list string) :
  Forall (fun ch => find NUL ch = None) chunks ->
  join (map c_str chunks) = join chunks.
Proof.
  induction 1 as [|ch chunks Hch _ IH]; [reflexivity|].
  cbn [map]. change (join (c_str ch :: map c_str chunks))
    with (c_str ch ++ join (map c_str chunks)).
  change (join (ch :: chunks)) with (ch ++ join chunks).
  now rewrite IH, c_str_no_nul.
Qed.

Section ReadLoop.

Context {W : Type} `{Sockets W}.
Variable Split : string -> string -> list string.

Lemma Receive_loop_spec (sockfd : Z) (last : option string) :
  match last with
  | Some ch => String.length ch < 255
  | None => True
  end ->
  forall (fulls : list string) (fuel : nat) (response : HTTPResponse) (s : Sys W),
    recv_results (S (List.length fulls)) sockfd (world s)
    = (map Some fulls ++ [last])%list ->
    Forall (fun ch => String.length ch = 255) fulls ->
    List.length fulls < fuel ->
    Receive_loop Split fuel sockfd response s
    = match last with
      | None =>
          Ret ((SOCKET_RECV,
                set_raw (_raw response ++ join (map c_str fulls)) response),
               mk_sys (recv_world (S (List.length fulls)) sockfd (world s))
                 (trace s ++ map (EvRecv sockfd RECV_CAPACITY)
                               (map Some fulls ++ [last]))%list)
      | Some ch =>
          lift (ParseResponse Split
                  (set_raw (_raw response ++ join (map c_str (fulls ++ [ch])%list))
                     response))
            (mk_sys (recv_world (S (List.length fulls)) sockfd (world s))
               (trace s ++ map (EvRecv sockfd RECV_CAPACITY)
                             (map Some fulls ++ [last]))%list)
      end.
Proof.
  intros Hlast fulls.
  induction fulls as [|ch fulls IH]; intros fuel response s Hreads Hfull Hfuel.
  - destruct fuel as [|fuel]; [cbn in Hfuel; lia|].
    cbn [Receive_loop List.length recv_results recv_world map app] in *.
    unfold bind at 1. unfold call_recv.
    destruct (sys_recv sockfd RECV_CAPACITY (world s)) as [r w] eqn:Hrecv.
    cbn [snd]. injection Hreads as ->.
    destruct last as [ch|].
    + assert (Hne : (Z.of_nat (String.length ch) =? RECV_CAPACITY)%Z = false).
      { apply Z.eqb_neq. unfold RECV_CAPACITY. lia. }
      rewrite Hne. cbn [negb].
      change (join [c_str ch]) with (c_str ch ++ EmptyString).
      now rewrite append_nil_r.
    + change (join []) with EmptyString. rewrite append_nil_r.
      now destruct response.
  - destruct fuel as [|fuel]; [cbn in Hfuel; lia|].
    cbn [List.length] in *.
    remember (S (List.length fulls)) as n eqn:Hn.
    cbn [Receive_loop recv_results recv_world map app] in *.
    unfold bind at 1. unfold call_recv.
    destruct (sys_recv sockfd RECV_CAPACITY (world s)) as [r w] eqn:Hrecv.
    cbn [snd]. injection Hreads as -> Hreads.
    inversion Hfull as [|? ? Hch Hfulls]; subst.
    assert (Heq : (Z.of_nat (String.length ch) =? RECV_CAPACITY)%Z = true).
    { apply Z.eqb_eq. unfold RECV_CAPACITY. lia. }
    rewrite Heq. cbn [negb].
    rewrite (IH fuel _ (mk_sys w (trace s ++ [EvRecv sockfd RECV_CAPACITY (Some ch)])%list));
      [| exact Hreads | exact Hfulls | cbn in Hfuel; lia].
    cbn [world trace _raw set_raw].
    rewrite !set_raw_twice. rewrite <- !app_assoc. cbn [app].
    change (join (c_str ch :: map c_str fulls))
      with (c_str ch ++ join (map c_str fulls)).
    destruct last as [ch'|].
    + change (join (c_str ch :: map c_str (fulls ++ [ch'])%list))
        with (c_str ch ++ join (map c_str (fulls ++ [ch'])%list)).
      now rewrite append_assoc.
    + now rewrite append_assoc.
Qed.

(** C5, as the code has it: the chunk is appended as a C string, so what
    reaches the raw buffer of each read is the chunk up to its first NUL
    byte, and the whole chunk when it has none.  The loop goes on through
    the reads that fill all 255 bytes and stops at the first read that does
    not: a shorter chunk ends the loop and the buffer is parsed, a failed
    read returns [SOCKET_RECV]. *)
Theorem Receive_appends_chunks_as_c_strings :
  forall (fuel : nat) (sockfd : Z) (response : HTTPResponse) (s : Sys W)
         (fulls : list string) (last : option string),
    recv_results (S (List.length fulls)) sockfd (world s)
    = (map Some fulls ++ [last])%list ->
    Forall (fun ch => String.length ch = 255) fulls ->
    match last with
    | Some ch => String.length ch < 255
    | None => True
    end ->
    List.length fulls < fuel ->
    Receive Split fuel sockfd response s
    = match last with
      | None =>
          Ret ((SOCKET_RECV, set_raw (join (map c_str fulls)) empty_response),
               mk_sys (recv_world (S (List.length fulls)) sockfd (world s))
                 (trace s ++ map (EvRecv sockfd RECV_CAPACITY)
                               (map Some fulls ++ [last]))%list)
      | Some ch =>
          lift (ParseResponse Split
                  (set_raw (join (map c_str (fulls ++ [ch])%list)) empty_response))
            (mk_sys (recv_world (S (List.length fulls)) sockfd (world s))
               (trace s ++ map (EvRecv sockfd RECV_CAPACITY)
                             (map Some fulls ++ [last]))%list)
      end
    /\ (forall chunks,
           Forall (fun ch => find NUL ch = None) chunks ->
           join (map c_str chunks) = join chunks).
Proof.
  intros fuel sockfd response s fulls last Hreads Hfull Hlast Hfuel.
  split; [|apply join_c_str_no_nul].
  unfold Receive, Reset.
  rewrite (Receive_loop_spec sockfd last Hlast fulls fuel empty_response s
             Hreads Hfull Hfuel).
  reflexivity.
Qed.

End ReadLoop.

(** Two reads: a full buffer, then four bytes that end the loop. *)
Lemma Receive_two_chunks_example :
  Receive Split_CRLF 2 3 empty_response
    (test_net 1 [Some ("HTTP/1.1 200 OK" ++ CRLF ++ CRLF ++ filler 236); Some "tail"])
  = lift (ParseResponse Split_CRLF
            (set_raw ("HTTP/1.1 200 OK" ++ CRLF ++ CRLF ++ filler 236 ++ "tail")
               empty_response))
      (mk_sys (mk_net true 1 None EmptyString [] (0%Z, []))
         [EvRecv 3 255 (Some ("HTTP/1.1 200 OK" ++ CRLF ++ CRLF ++ filler 236));
          EvRecv 3 255 (Some "tail")]).
Proof.
  apply (proj1 (@Receive_appends_chunks_as_c_strings TestNet TestNet_Sockets
                  Split_CRLF 2 3 empty_response
                  (test_net 1 [Some ("HTTP/1.1 200 OK" ++ CRLF ++ CRLF ++ filler 236);
                               Some "tail"])
                  ["HTTP/1.1 200 OK" ++ CRLF ++ CRLF ++ filler 236] (Some "tail")
                  ltac:(reflexivity)
                  ltac:(repeat constructor)
                  ltac:(vm_compute; lia)
                  ltac:(vm_compute; lia))).
Defined.

(** C5 as stated fails: of a five-byte chunk with a NUL byte in the middle
    only the two bytes before the NUL reach the raw buffer. *)
Lemma Receive_drops_bytes_after_nul :
  exists r s',
    Receive Split_CRLF 2 3 empty_response
      (test_net 1 [Some ("ab" ++ String NUL "cd")])
    = Ret ((OK, r), s')
    /\ String.length ("ab" ++ String NUL "cd") = 5
    /\ _raw r = "ab"
    /\ _raw r <> "ab" ++ String NUL "cd".
Proof.
  do 2 eexists. split; [vm_compute; reflexivity|].
  repeat split. discriminate.
Qed.

(* ------------------------------------------------------------------------- *)
(** ** Host resolution *)

Lemma usable_iff (a : addrinfo) : usable a = true <-> is_usable a.
Proof.
  unfold usable, is_usable. rewrite !andb_true_iff, !Z.eqb_eq. tauto.
Qed.

Lemma scan_candidates_none (l : list addrinfo) (err : ECode) (c : HTTPClient) :
  Forall (fun a => ~ is_usable a) l -> scan_candidates l err c = (err, c).
Proof.
  induction 1 as [|a l Ha _ IH]; cbn [scan_candidates]; [reflexivity|].
  destruct (usable a) eqn:Hu; [|exact IH].
  apply usable_iff in Hu. contradiction.
Qed.

Lemma scan_candidates_first (l1 l2 : list addrinfo) (a : addrinfo) (err : ECode)
    (c : HTTPClient) :
  Forall (fun a => ~ is_usable a) l1 -> is_usable a ->
  scan_candidates (l1 ++ a :: l2)%list err c = (OK, set_address (ai_addr a) c).
Proof.
  intros Hl1 Ha. induction Hl1 as [|b l1 Hb _ IH]; cbn [scan_candidates app].
  - now rewrite (proj2 (usable_iff a) Ha).
  - destruct (usable b) eqn:Hu; [|exact IH].
    apply usable_iff in Hu. contradiction.
Qed.

(** Either no candidate passes the test, or the list splits at the first
    that does. *)
Lemma first_usable (l : list addrinfo) :
  Forall (fun a => ~ is_usable a) l
  \/ exists l1 a l2, l = (l1 ++ a :: l2)%list
                     /\ Forall (fun a => ~ is_usable a) l1 /\ is_usable a.
Proof.
  induction l as [|b l IH]; [left; constructor|].
  destruct (usable b) eqn:Hu.
  - right. exists [], b, l.
    split; [reflexivity | split; [constructor | now apply usable_iff]].
  - assert (Hb : ~ is_usable b).
    { intros Hb. apply usable_iff in Hb. congruence. }
    destruct IH as [Hall|[l1 [a [l2 [-> [Hl1 Ha]]]]]].
    + left. now constructor.
    + right. exists (b :: l1), a, l2.
      split; [reflexivity | split; [now constructor | exact Ha]].
Qed.

Section Resolver.

Context {W : Type} `{Sockets W}.

(** C9: [ResolveHost] always returns.  It returns [HOST_ADDRINFO] exactly
    when [getaddrinfo] returned non-zero; after a successful resolution it
    returns [HOST_NORESULT] exactly when no candidate is IPv4, stream and
    TCP; otherwise it returns [OK] and the [_address] of the client it leaves
    is the address of the first such candidate, whatever comes after it in
    the list.  On failure the client, its [_address] included, is unchanged. *)
Theorem ResolveHost_result :
  forall (c : HTTPClient) (s : Sys W),
    exists err c' s',
      ResolveHost c s = Ret ((err, c'), s')
      /\ (err = HOST_ADDRINFO
          <-> fst (fst (sys_getaddrinfo (_unresolved_host c)
                          (to_string_int (_port c)) resolve_hints (world s))) <> 0%Z)
      /\ (fst (fst (sys_getaddrinfo (_unresolved_host c)
                      (to_string_int (_port c)) resolve_hints (world s))) = 0%Z ->
          (err = HOST_NORESULT
           <-> Forall (fun a => ~ is_usable a)
                 (snd (fst (sys_getaddrinfo (_unresolved_host c)
                              (to_string_int (_port c)) resolve_hints (world s)))))
          /\ forall l1 a l2,
              snd (fst (sys_getaddrinfo (_unresolved_host c)
                          (to_string_int (_port c)) resolve_hints (world s)))
              = (l1 ++ a :: l2)%list ->
              Forall (fun a => ~ is_usable a) l1 -> is_usable a ->
              err = OK /\ c' = set_address (ai_addr a) c
              /\ _address c' = ai_addr a)
      /\ (err <> OK -> c' = c /\ _address c' = _address c).
Proof.
  intros c s. unfold ResolveHost, bind, call_getaddrinfo. cbv zeta.
  destruct (sys_getaddrinfo (_unresolved_host c) (to_string_int (_port c))
              resolve_hints (world s)) as [[r result] w] eqn:Hcall.
  cbn [fst snd].
  destruct (r =? 0)%Z eqn:Hr; cbn [negb].
  - apply Z.eqb_eq in Hr. subst r.
    destruct (first_usable result) as [Hnone|[l1 [a [l2 [-> [Hl1 Ha]]]]]].
    + rewrite (scan_candidates_none _ _ _ Hnone). unfold call_freeaddrinfo, ret.
      do 3 eexists. split; [reflexivity|].
      split; [split; [discriminate | intros Hne; now elim Hne]|].
      split; [|split; reflexivity].
      intros _. split; [tauto|].
      intros l1 a l2 -> Hl1 Ha.
      apply Forall_app in Hnone. destruct Hnone as [_ Hnone].
      inversion Hnone; subst. contradiction.
    + rewrite (scan_candidates_first _ _ _ _ _ Hl1 Ha). unfold call_freeaddrinfo, ret.
      do 3 eexists. split; [reflexivity|].
      split; [split; [discriminate | intros Hne; now elim Hne]|].
      split; [|intros Hne; now elim Hne].
      intros _. split.
      * split; [discriminate|].
        intros Hall. apply Forall_app in Hall. destruct Hall as [_ Hall].
        inversion Hall; subst. contradiction.
      * intros l1' a' l2' Heq Hl1' Ha'.
        split; [reflexivity|].
        pose proof (scan_candidates_first l1 l2 a HOST_NORESULT c Hl1 Ha) as E1.
        pose proof (scan_candidates_first l1' l2' a' HOST_NORESULT c Hl1' Ha') as E2.
        rewrite Heq in E1. rewrite E1 in E2.
        apply (f_equal snd) in E2. cbn [snd] in E2.
        split; [exact E2|]. rewrite E2. reflexivity.
  - apply Z.eqb_neq in Hr. unfold ret.
    do 3 eexists. split; [reflexivity|].
    split; [tauto|]. split; [intros E; contradiction | split; reflexivity].
Qed.

End Resolver.

(** Three resolutions: a failed call, candidates that are all unusable, and
    a usable candidate in second place followed by another one. *)
Example ResolveHost_runs :
  let c := HTTPClient_new "example.com" 80 in
  let v6 := mk_addrinfo 10 1 6 "::1" in
  let udp := mk_addrinfo 2 2 17 "10.0.0.9" in
  let first := mk_addrinfo 2 1 6 "10.0.0.1" in
  let second := mk_addrinfo 2 1 6 "10.0.0.2" in
  (exists s', ResolveHost c (test_dns ((-2)%Z, [])) = Ret ((HOST_ADDRINFO, c), s'))
  /\ (exists s', ResolveHost c (test_dns (0%Z, [v6; udp])) = Ret ((HOST_NORESULT, c), s'))
  /\ (exists s', ResolveHost c (test_dns (0%Z, [v6; first; second]))
                 = Ret ((OK, set_address "10.0.0.1" c), s')).
Proof. cbv zeta. repeat split; eexists; reflexivity. Qed.

(** A usable candidate in second place, followed by another one: the address
    the client holds afterwards is that of the first usable candidate. *)
Lemma ResolveHost_first_usable_example :
  exists c' s',
    ResolveHost (HTTPClient_new "example.com" 80)
      (test_dns (0%Z, [mk_addrinfo 10 1 6 "::1"; mk_addrinfo 2 1 6 "10.0.0.1";
                       mk_addrinfo 2 1 6 "10.0.0.2"]))
    = Ret ((OK, c'), s')
    /\ _address c' = "10.0.0.1".
Proof.
  destruct (@ResolveHost_result TestNet TestNet_Sockets
              (HTTPClient_new "example.com" 80)
              (test_dns (0%Z, [mk_addrinfo 10 1 6 "::1"; mk_addrinfo 2 1 6 "10.0.0.1";
                               mk_addrinfo 2 1 6 "10.0.0.2"])))
    as [err [c' [s' [Hrun [_ [Hok _]]]]]].
  destruct (Hok eq_refl) as [_ Hfirst].
  destruct (Hfirst [mk_addrinfo 10 1 6 "::1"] (mk_addrinfo 2 1 6 "10.0.0.1")
              [mk_addrinfo 2 1 6 "10.0.0.2"] eq_refl)
    as [-> [_ Haddr]].
  - repeat constructor. intros [Hfam _]. discriminate Hfam.
  - repeat split.
  - exists c', s'. split; [exact Hrun | exact Haddr].
Defined.

(* ------------------------------------------------------------------------- *)
(** ** The cookie jar across requests *)

Lemma ECode_eqb_OK (e : ECode) : ECode_eqb e OK = true <-> e = OK.
Proof. destruct e; cbn; split; intros; congruence. Qed.

(** A cookie of the merged mapping is on the [cookie:] line of the request. *)
Lemma cookie_line_has (c : HTTPClient) (method path : string) (q : Map)
    (data ct : string) (user_headers user_cookies : Map) (name value : string) :
  SMap.find name (merged_cookies c user_cookies) = Some value ->
  exists pre a b post,
    request_bytes c method path q data ct user_headers user_cookies
    = pre ++ "cookie: " ++ a ++ name ++ "=" ++ value ++ ";" ++ b ++ CRLF ++ post.
Proof.
  intros Hf. unfold request_bytes. rewrite FormatRequest_layout.
  destruct (size (merged_cookies c user_cookies) =? 0)%nat eqn:Hsize.
  - apply size_zero_elements in Hsize.
    rewrite SMapFacts.elements_o, Hsize in Hf. discriminate.
  - apply SMap.find_2, SMap.elements_1 in Hf.
    rewrite InA_alt in Hf. destruct Hf as [[k' v'] [[Hk Hv] Hin]]. simpl in *; subst.
    apply in_split in Hin. destruct Hin as [l1 [l2 ->]].
    exists (request_line method path q
            ++ join (map header_line (SMap.elements (merged_headers c user_headers)))),
      (join (map cookie_entry l1)), (join (map cookie_entry l2)).
    eexists.
    rewrite map_app, join_app.
    change (join (map cookie_entry ((k', v') :: l2)))
      with (cookie_entry (k', v') ++ join (map cookie_entry l2)).
    unfold cookie_entry at 2. simpl fst; simpl snd.
    rewrite !append_assoc. reflexivity.
Qed.

Section Jar.

Context {W : Type} `{Sockets W}.
Variable Split : string -> string -> list string.

(** What a [Request] that returns leaves in the client: nothing new when
    it failed; when it succeeded, the jar updated from the response that
    [Receive] parsed. *)
Lemma Request_outcome (fuel : nat) (c : HTTPClient) (method path : string)
    (q : Map) (data ct : string) (uh uc : Map) (s s' : Sys W)
    (err : ECode) (c' : HTTPClient) :
  Request Split fuel c method path q data ct uh uc s = Ret ((err, c'), s') ->
  (err <> OK /\ c' = c)
  \/ (err = OK
      /\ exists sockfd s2 s3 resp,
          Receive Split fuel sockfd empty_response s2 = Ret ((OK, resp), s3)
          /\ c' = update_cookies (GetCookies resp) c).
Proof.
  unfold Request. cbv zeta. unfold bind at 1.
  destruct (Connect c s) as [[sockfd s1]| |]; try discriminate.
  destruct (sockfd =? INVALID_SOCKET)%Z.
  { unfold ret. intros [= <- <- <-]. left. split; [discriminate|reflexivity]. }
  unfold bind at 1.
  destruct (Send fuel sockfd _ s1) as [[e s2]| |]; try discriminate.
  destruct (ECode_eqb e OK) eqn:He; cbn [negb].
  2:{ unfold bind, Disconnect, call_closesocket, ret.
      intros [= <- <- <-]. left. split; [|reflexivity].
      intros ->. discriminate. }
  unfold bind at 1.
  destruct (Receive Split fuel sockfd empty_response s2) as [[[e2 resp] s3]| |] eqn:Hrecv;
    try discriminate.
  destruct (ECode_eqb e2 OK) eqn:He2; cbn [negb].
  2:{ unfold bind, Disconnect, call_closesocket, ret.
      intros [= <- <- <-]. left. split; [|reflexivity].
      intros ->. discriminate. }
  apply ECode_eqb_OK in He2. subst e2.
  unfold bind, Disconnect, call_closesocket, ret.
  intros [= <- <- <-]. right. split; [reflexivity|].
  exists sockfd, s2, s3, resp. split; [exact Hrecv | reflexivity].
Qed.

(** C7, as the code has it.  After a successful [Request] every cookie of
    the parsed response is in the jar under its name, replacing what was
    there, and the other entries of the jar are as before.  A cookie of the
    jar is sent on the [cookie:] line of a request as [name=value;] unless
    the caller supplies a cookie of the same name, whose value is sent in
    its place.  The entry stays in the jar through later requests until a
    successful response sets that name again. *)
Theorem response_cookies_are_kept_and_resent :
  (forall (fuel : nat) (c c' : HTTPClient) (method path : string) (q : Map)
          (data ct : string) (uh uc : Map) (s s' : Sys W),
      Request Split fuel c method path q data ct uh uc s = Ret ((OK, c'), s') ->
      exists sockfd s2 s3 resp,
        Receive Split fuel sockfd empty_response s2 = Ret ((OK, resp), s3)
        /\ forall name,
            SMap.find name (_system_cookies c')
            = match SMap.find name (GetCookies resp) with
              | Some value => Some value
              | None => SMap.find name (_system_cookies c)
              end)
  /\ (forall (c : HTTPClient) (name value method path : string) (q : Map)
             (data ct : string) (uh uc : Map),
         SMap.find name (_system_cookies c) = Some value ->
         SMap.find name (merged_cookies c uc)
         = match SMap.find name uc with
           | Some mine => Some mine
           | None => Some value
           end
         /\ (SMap.find name uc = None ->
             exists pre a b post,
               request_bytes c method path q data ct uh uc
               = pre ++ "cookie: " ++ a ++ name ++ "=" ++ value ++ ";" ++ b
                     ++ CRLF ++ post))
  /\ (forall (fuel : nat) (c c' : HTTPClient) (method path : string) (q : Map)
             (data ct : string) (uh uc : Map) (s s' : Sys W) (err : ECode)
             (name value : string),
         SMap.find name (_system_cookies c) = Some value ->
         Request Split fuel c method path q data ct uh uc s = Ret ((err, c'), s') ->
         SMap.find name (_system_cookies c') = Some value
         \/ (err = OK
             /\ exists sockfd s2 s3 resp other,
                 Receive Split fuel sockfd empty_response s2 = Ret ((OK, resp), s3)
                 /\ SMap.find name (GetCookies resp) = Some other
                 /\ SMap.find name (_system_cookies c') = Some other)).
Proof.
  split; [|split].
  - intros fuel c c' method path q data ct uh uc s s' Hrun.
    destruct (Request_outcome _ _ _ _ _ _ _ _ _ _ _ _ _ Hrun)
      as [[Hne _]|[_ [sockfd [s2 [s3 [resp [Hrecv ->]]]]]]]; [now elim Hne|].
    exists sockfd, s2, s3, resp. split; [exact Hrecv|].
    intros name. apply find_update_cookies.
  - intros c name value method path q data ct uh uc Hjar.
    assert (Hm : SMap.find name (merged_cookies c uc)
                 = match SMap.find name uc with
                   | Some mine => Some mine
                   | None => Some value
                   end).
    { unfold merged_cookies. rewrite find_insert_range, Hjar. reflexivity. }
    split; [exact Hm|].
    intros Hnone. apply cookie_line_has. now rewrite Hm, Hnone.
  - intros fuel c c' method path q data ct uh uc s s' err name value Hjar Hrun.
    destruct (Request_outcome _ _ _ _ _ _ _ _ _ _ _ _ _ Hrun)
      as [[_ ->]|[-> [sockfd [s2 [s3 [resp [Hrecv ->]]]]]]]; [now left|].
    pose proof (find_update_cookies name (GetCookies resp) c) as Hupd.
    destruct (SMap.find name (GetCookies resp)) as [other|] eqn:Hresp.
    + right. split; [reflexivity|].
      exists sockfd, s2, s3, resp, other. auto.
    + left. now rewrite Hupd.
Qed.

End Jar.

(** Two requests through one client: the reply to the first sets [session],
    and the second request sends it back. *)
Lemma second_request_sends_cookie :
  (exists s1,
      Request Split_CRLF 256 (HTTPClient_new "example.com" 80) "GET" "/login"
        (SMap.empty string) EmptyString EmptyString (SMap.empty string)
        (SMap.empty string) (test_net 16 [Some cookie_reply])
      = Ret ((OK, client_with_session), s1))
  /\ SMap.find "session" (_system_cookies client_with_session) = Some "abc123"
  /\ exists pre a b post,
      request_bytes client_with_session "GET" "/next" (SMap.empty string)
        EmptyString EmptyString (SMap.empty string) (SMap.empty string)
      = pre ++ "cookie: " ++ a ++ "session=abc123;" ++ b ++ CRLF ++ post.
Proof.
  destruct (@response_cookies_are_kept_and_resent TestNet TestNet_Sockets Split_CRLF)
    as [_ [Hsent _]].
  split; [eexists; vm_compute; reflexivity|].
  split; [reflexivity|].
  apply (Hsent client_with_session "session" "abc123" "GET" "/next"
           (SMap.empty string) EmptyString EmptyString
           (SMap.empty string) (SMap.empty string));
    reflexivity.
Defined.

(** C7 as stated fails: when the caller of the next request supplies a
    cookie named [session] itself, its value is sent and the value the
    server set is not. *)
Lemma caller_cookie_replaces_jar_cookie :
  (exists s1,
      Request Split_CRLF 256 (HTTPClient_new "example.com" 80) "GET" "/login"
        (SMap.empty string) EmptyString EmptyString (SMap.empty string)
        (SMap.empty string) (test_net 16 [Some cookie_reply])
      = Ret ((OK, client_with_session), s1))
  /\ SMap.find "session" (_system_cookies client_with_session) = Some "abc123"
  /\ request_bytes client_with_session "GET" "/next" (SMap.empty string)
       EmptyString EmptyString (SMap.empty string) (map_of_list [("session", "mine")])
     = "GET /next HTTP/1.1" ++ CRLF ++ "host: example.com:80" ++ CRLF
       ++ "cookie: session=mine;" ++ CRLF ++ CRLF
  /\ index 0 "session=abc123;"
       (request_bytes client_with_session "GET" "/next" (SMap.empty string)
          EmptyString EmptyString (SMap.empty string)
          (map_of_list [("session", "mine")]))
     = None.
Proof.
  split; [eexists; vm_compute; reflexivity|].
  repeat split; reflexivity.
Qed.

(* ------------------------------------------------------------------------- *)
(** ** More on the parser: what one line can do *)

Lemma set_data_twice (a b : string) (r : HTTPResponse) :
  set_data a (set_data b r) = set_data a r.
Proof. reflexivity. Qed.

Lemma set_data_same (r : HTTPResponse) : set_data (_data r) r = r.
Proof. now destruct r. Qed.

(** A status-state line never faults. *)
Lemma status_step_returns (cl : Z) (resp : HTTPResponse) (line : string) :
  exists a b c,
    parse_line (mk_parser STATUS cl resp) line
    = Ret (mk_parser HEADERS cl (set_status_line a b c resp)).
Proof.
  unfold parse_line. cbn [p_state p_response p_content_length].
  destruct (extract_string (mk_ss line false) (_protover resp)) as [a ss1].
  destruct (extract_int ss1 (_code resp)) as [b ss2].
  destruct (extract_string ss2 (_status resp)) as [c ss3].
  now exists a, b, c.
Qed.

(** The ways a header-state line can end. *)
Lemma header_step_cases (cl : Z) (resp : HTTPResponse) (line : string) :
  (colon_last line = true
   /\ parse_line (mk_parser HEADERS cl resp) line = Throws out_of_range)
  \/ (colon_last line = false
      /\ (parse_line (mk_parser HEADERS cl resp) line = Ret (mk_parser BODY cl resp)
          /\ String.length line = 0
          \/ String.length line <> 0
             /\ (parse_line (mk_parser HEADERS cl resp) line
                 = Ret (mk_parser HEADERS cl resp)
                 \/ (exists key val cl',
                        parse_line (mk_parser HEADERS cl resp) line
                        = Ret (mk_parser HEADERS cl'
                                 (set_headers
                                    (assign (transform tolower key) val (_headers resp))
                                    resp)))
                 \/ (exists name value,
                        parse_line (mk_parser HEADERS cl resp) line
                        = Ret (mk_parser HEADERS cl
                                 (set_cookies (assign name value (_cookies resp))
                                    resp)))))).
Proof.
  unfold colon_last.
  destruct (String.length line =? 0)%nat eqn:H0.
  - apply Nat.eqb_eq in H0. right.
    destruct line; [|discriminate]. cbn. auto.
  - apply Nat.eqb_neq in H0.
    destruct (find ":" line) as [pos|] eqn:Hpos.
    + pose proof (find_bound _ _ _ Hpos) as Hlt.
      destruct (String.length line =? pos + 1)%nat eqn:Hlast.
      * apply Nat.eqb_eq in Hlast. left. split; [reflexivity|].
        unfold parse_line. cbn [p_state p_response p_content_length].
        rewrite (proj2 (Nat.eqb_neq _ _) H0), Hpos.
        rewrite substr_in_range by lia.
        rewrite substr_from_out_of_range by lia. reflexivity.
      * apply Nat.eqb_neq in Hlast. right. split; [reflexivity|].
        right. split; [exact H0|].
        rewrite (header_line_in_range cl resp line pos Hpos) by lia. cbv zeta.
        destruct (negb _).
        -- right. left. exists (take pos line), (drop (pos + 2) line). eauto.
        -- destruct (find "=" _); [right; right; eauto | left; reflexivity].
    + right. split; [reflexivity|]. right. split; [exact H0|]. left.
      unfold parse_line. cbn [p_state p_response p_content_length].
      now rewrite (proj2 (Nat.eqb_neq _ _) H0), Hpos.
Qed.

(** A body-state line never faults and only touches the body. *)
Lemma body_step_returns (cl : Z) (resp : HTTPResponse) (line : string) :
  exists data,
    parse_line (mk_parser BODY cl resp) line
    = Ret (mk_parser BODY cl (set_data data resp)).
Proof.
  unfold parse_line. cbn [p_state p_response p_content_length]. eauto.
Qed.

Lemma body_lines_return (lines : list string) (cl : Z) (resp : HTTPResponse) :
  exists data,
    parse_lines (mk_parser BODY cl resp) lines
    = Ret (mk_parser BODY cl (set_data data resp)).
Proof.
  revert resp; induction lines as [|line lines IH]; intros resp; cbn [parse_lines].
  - exists (_data resp). now rewrite set_data_same.
  - destruct (body_step_returns cl resp line) as [d ->]. cbn [rbind].
    destruct (IH (set_data d resp)) as [d' ->]. exists d'.
    now rewrite set_data_twice.
Qed.

(** Header-state lines throw exactly when one of them, before the first empty
    line, ends in its first colon. *)
Lemma header_lines_fault_iff (lines : list string) (cl : Z) (resp : HTTPResponse) :
  (existsb colon_last (header_block lines) = true
   /\ parse_lines (mk_parser HEADERS cl resp) lines = Throws out_of_range)
  \/ (existsb colon_last (header_block lines) = false
      /\ exists p, parse_lines (mk_parser HEADERS cl resp) lines = Ret p).
Proof.
  revert cl resp; induction lines as [|line lines IH]; intros cl resp;
    cbn [parse_lines header_block existsb].
  - right. eauto.
  - destruct (header_step_cases cl resp line)
      as [[Hlast ->]|[Hlast [[-> H0]|[H0 Hstep]]]]; cbn [rbind].
    + left. destruct (String.length line =? 0)%nat eqn:E.
      * apply Nat.eqb_eq in E. destruct line; [discriminate Hlast | discriminate E].
      * cbn [existsb]. now rewrite Hlast.
    + rewrite H0. cbn [Nat.eqb existsb]. right. split; [reflexivity|].
      destruct (body_lines_return lines cl resp) as [d ->]. eauto.
    + rewrite (proj2 (Nat.eqb_neq _ _) H0). cbn [existsb]. rewrite Hlast. cbn [orb].
      destruct Hstep as [->|[[key [val [cl' ->]]]|[name [value ->]]]]; cbn [rbind];
        apply IH.
Qed.

(** X11: [ParseResponse] either returns [OK] or throws [std::out_of_range];
    it throws exactly when one of the lines between the status line and the
    first empty line has its first colon as its last character.  The status
    line and the lines of the body never make it throw. *)
Theorem ParseResponse_throws_iff_header_ends_in_colon :
  forall (Split : string -> string -> list string) (resp : HTTPResponse),
    (ParseResponse Split resp = Throws out_of_range
     <-> existsb colon_last (header_block (tl (Split (_raw resp) CRLF))) = true)
    /\ (existsb colon_last (header_block (tl (Split (_raw resp) CRLF))) = false ->
        exists r, ParseResponse Split resp = Ret (OK, r)).
Proof.
  intros Split resp. unfold ParseResponse.
  destruct (Split (_raw resp) CRLF) as [|status lines]; cbn [tl parse_lines].
  - cbn. split; [split; discriminate | eauto].
  - destruct (status_step_returns 0 resp status) as [a [b [c ->]]]. cbn [rbind].
    destruct (header_lines_fault_iff lines 0 (set_status_line a b c resp))
      as [[-> ->]|[-> [p ->]]]; cbn [rbind].
    + split; [tauto | discriminate].
    + split; [split; discriminate | eauto].
Qed.

(* ------------------------------------------------------------------------- *)
(** ** An ordinary header line *)

(** X9: a header line is stored under its lower-cased name.  For a
    header-state line with a colon, room for a value and a name other than
    [set-cookie], the text that starts two characters after the colon is
    stored under the lower-cased name, replacing what was stored under that
    name; the other headers and the cookies are as before, and the bound of
    the body changes only if the name is [content-length]. *)
Theorem header_line_is_stored_under_lower_case_name :
  forall (cl : Z) (resp : HTTPResponse) (line : string) (pos : nat),
    find ":" line = Some pos ->
    pos + 2 <= String.length line ->
    transform tolower (take pos line) <> "set-cookie" ->
    exists p',
      parse_line (mk_parser HEADERS cl resp) line = Ret p'
      /\ p_state p' = HEADERS
      /\ SMap.find (transform tolower (take pos line)) (_headers (p_response p'))
         = Some (drop (pos + 2) line)
      /\ (forall k, k <> transform tolower (take pos line) ->
                    SMap.find k (_headers (p_response p')) = SMap.find k (_headers resp))
      /\ _cookies (p_response p') = _cookies resp
      /\ (transform tolower (take pos line) <> "content-length" ->
          p_content_length p' = cl).
Proof.
  intros cl resp line pos Hpos Hlen Hname.
  rewrite (header_line_in_range _ _ _ _ Hpos Hlen). cbv zeta.
  rewrite (proj2 (String.eqb_neq _ _) Hname). cbn [negb].
  eexists. split; [reflexivity|].
  cbn [p_state p_response p_content_length _headers _cookies set_headers].
  split; [reflexivity|]. unfold assign.
  split; [now rewrite SMapFacts.add_eq_o|].
  split; [intros k Hk; rewrite SMapFacts.add_neq_o; [reflexivity | congruence]|].
  split; [reflexivity|].
  intros Hcl. now rewrite (proj2 (String.eqb_neq _ _) Hcl).
Qed.

(** A name in mixed case, and a value that does not follow a space. *)
Lemma header_line_is_stored_example :
  (exists p',
      parse_line (mk_parser HEADERS 0 empty_response) "Content-Type: text/plain" = Ret p'
      /\ SMap.find "content-type" (_headers (p_response p')) = Some "text/plain")
  /\ (exists p',
         parse_line (mk_parser HEADERS 0 empty_response) "Server:nginx" = Ret p'
         /\ SMap.find "server" (_headers (p_response p')) = Some "ginx").
Proof.
  split.
  - destruct (header_line_is_stored_under_lower_case_name 0 empty_response
                "Content-Type: text/plain" 12
                ltac:(reflexivity) ltac:(vm_compute; lia) ltac:(discriminate))
      as [p' [Hrun [_ [Hfind _]]]].
    exists p'. split; [exact Hrun | exact Hfind].
  - destruct (header_line_is_stored_under_lower_case_name 0 empty_response
                "Server:nginx" 6
                ltac:(reflexivity) ltac:(vm_compute; lia) ltac:(discriminate))
      as [p' [Hrun [_ [Hfind _]]]].
    exists p'. split; [exact Hrun | exact Hfind].
Defined.

(* ------------------------------------------------------------------------- *)
(** ** Header names are stored in lower case *)

Lemma tolower_not_upper (c : ascii) : isupper (tolower c) = false.
Proof.
  unfold tolower.
  destruct ((65 <=? nat_of_ascii c)%nat && (nat_of_ascii c <=? 90)%nat) eqn:Hup.
  - apply andb_prop in Hup. destruct Hup as [Hlo Hhi].
    apply Nat.leb_le in Hlo. apply Nat.leb_le in Hhi.
    unfold isupper. rewrite nat_ascii_embedding by lia.
    apply andb_false_iff. right. apply Nat.leb_gt. lia.
  - exact Hup.
Qed.

Lemma transform_tolower_lower_case (s : string) : lower_case (transform tolower s).
Proof.
  unfold lower_case. induction s as [|c s IH]; cbn [transform string_forall];
    [reflexivity|].
  now rewrite tolower_not_upper, IH.
Qed.

Lemma lower_keys_assign (k v : string) (m : Map) :
  lower_case k -> lower_keys m -> lower_keys (assign k v m).
Proof.
  intros Hk Hm k' Hin. unfold assign in Hin.
  apply SMapFacts.add_in_iff in Hin. destruct Hin as [<-|Hin]; auto.
Qed.

Lemma parse_lines_lower_keys (lines : list string) (p p' : parser) :
  lower_keys (_headers (p_response p)) -> parse_lines p lines = Ret p' ->
  lower_keys (_headers (p_response p')).
Proof.
  revert p; induction lines as [|line lines IH]; intros p Hp; cbn [parse_lines].
  - now intros [= <-].
  - destruct (parse_line p line) as [q| |] eqn:Hq; cbn [rbind]; try discriminate.
    apply IH. destruct p as [st cl resp]. cbn [p_response] in Hp.
    destruct st.
    + destruct (status_step_returns cl resp line) as [a [b [c E]]].
      rewrite E in Hq. injection Hq as <-. exact Hp.
    + destruct (header_step_cases cl resp line)
        as [[_ E]|[_ [[E _]|[_ [E|[[key [val [cl' E]]]|[name [value E]]]]]]]];
        rewrite E in Hq; try discriminate; injection Hq as <-; try exact Hp.
      cbn [p_response _headers set_headers].
      apply lower_keys_assign; [apply transform_tolower_lower_case | exact Hp].
    + destruct (body_step_returns cl resp line) as [d E].
      rewrite E in Hq. injection Hq as <-. exact Hp.
Qed.

(** X10: the names in the headers mapping stay in lower case.  If every key
    of the mapping is in lower case before [ParseResponse], every key is in
    lower case after it, whatever the case of the names in the response. *)
Theorem ParseResponse_keeps_header_names_lower_case :
  forall (Split : string -> string -> list string) (resp r : HTTPResponse) (e : ECode),
    lower_keys (_headers resp) ->
    ParseResponse Split resp = Ret (e, r) ->
    lower_keys (_headers r).
Proof.
  intros Split resp r e Hresp. unfold ParseResponse.
  destruct (parse_lines _ _) as [p| |] eqn:Hp; cbn [rbind]; try discriminate.
  intros [= <- <-].
  exact (parse_lines_lower_keys _ (mk_parser STATUS 0 resp) _ Hresp Hp).
Qed.

Lemma lower_keys_empty : lower_keys (SMap.empty string).
Proof.
  intros k Hin. apply SMapFacts.empty_in_iff in Hin. contradiction.
Qed.

(** A response with names in mixed case. *)
Lemma header_names_lower_case_example :
  exists r,
    ParseResponse Split_CRLF
      (set_raw ("HTTP/1.1 200 OK" ++ CRLF ++ "Content-Type: text/plain" ++ CRLF
                ++ "X-Request-ID: 7" ++ CRLF ++ CRLF) empty_response)
    = Ret (OK, r)
    /\ SMap.elements (_headers r)
       = [("content-type", "text/plain"); ("x-request-id", "7")]
    /\ lower_keys (_headers r).
Proof.
  eexists. split; [vm_compute; reflexivity|]. split; [reflexivity|].
  apply (ParseResponse_keeps_header_names_lower_case Split_CRLF
           (set_raw ("HTTP/1.1 200 OK" ++ CRLF ++ "Content-Type: text/plain" ++ CRLF
                     ++ "X-Request-ID: 7" ++ CRLF ++ CRLF) empty_response)
           _ OK lower_keys_empty).
  vm_compute. reflexivity.
Defined.

(* ------------------------------------------------------------------------- *)
(** ** The body and content-length *)

Lemma join_with_cons (sep a b : string) (rest : list string) :
  join_with sep (a :: b :: rest) = a ++ sep ++ join_with sep (b :: rest).
Proof. reflexivity. Qed.

Lemma body_rebuilt_run (lines : list string) (resp : HTTPResponse) :
  lines <> [] ->
  parse_lines
    (mk_parser BODY
       (Z.of_nat (String.length (_data resp ++ join_with CRLF lines))) resp)
    lines
  = Ret (mk_parser BODY
           (Z.of_nat (String.length (_data resp ++ join_with CRLF lines)))
           (set_data (_data resp ++ join_with CRLF lines) resp)).
Proof.
  revert resp. induction lines as [|line lines IH]; intros resp Hne; [contradiction|].
  destruct lines as [|next lines].
  - cbn [parse_lines join_with parse_line p_state p_response p_content_length rbind].
    rewrite Z.ltb_irrefl. reflexivity.
  - rewrite join_with_cons.
    cbn [parse_lines]. unfold parse_line at 1.
    cbn [p_state p_response p_content_length].
    assert (Hlt : (Z.of_nat (String.length (_data resp ++ line))
                   <? Z.of_nat (String.length
                        (_data resp ++ line ++ CRLF ++ join_with CRLF (next :: lines))))%Z
                  = true).
    { apply Z.ltb_lt. rewrite !length_append. cbn [String.length CRLF]. lia. }
    rewrite Hlt. cbn [rbind].
    specialize (IH (set_data ((_data resp ++ line) ++ CRLF) resp) ltac:(discriminate)).
    cbn [_data set_data] in IH.
    replace (((_data resp ++ line) ++ CRLF) ++ join_with CRLF (next :: lines))
      with (_data resp ++ line ++ CRLF ++ join_with CRLF (next :: lines)) in IH
      by now rewrite !append_assoc.
    cbn [parse_lines] in IH. rewrite IH. now rewrite set_data_twice.
Qed.

(** X13: a body is put back together exactly.  When content-length is the
    length the body has once the remaining lines are joined by CRLF,
    parsing those lines returns a response whose body is precisely that:
    CRLF is put back between the lines and not after the last one.  The
    headers and the cookies are as they were. *)
Theorem body_is_rebuilt_from_its_lines :
  forall (lines : list string) (resp : HTTPResponse),
    lines <> [] ->
    exists p',
      parse_lines
        (mk_parser BODY
           (Z.of_nat (String.length (_data resp ++ join_with CRLF lines))) resp)
        lines
      = Ret p'
      /\ p_state p' = BODY
      /\ _data (p_response p') = _data resp ++ join_with CRLF lines
      /\ Z.of_nat (String.length (_data (p_response p'))) = p_content_length p'
      /\ _headers (p_response p') = _headers resp
      /\ _cookies (p_response p') = _cookies resp.
Proof.
  intros lines resp Hne. eexists. split; [apply (body_rebuilt_run lines resp Hne)|].
  cbn [p_state p_response p_content_length _data _headers _cookies set_data].
  repeat split.
Qed.

(** The lines [hello] and [world] of a twelve-byte body. *)
Lemma body_is_rebuilt_example :
  exists p',
    parse_lines (mk_parser BODY 12 empty_response) ["hello"; "world"] = Ret p'
    /\ _data (p_response p') = "hello" ++ CRLF ++ "world".
Proof.
  destruct (body_is_rebuilt_from_its_lines ["hello"; "world"] empty_response
              ltac:(discriminate)) as [p' [Hrun [_ [Hdata _]]]].
  exists p'. split; [exact Hrun | exact Hdata].
Defined.

Lemma body_lines_concatenated_run (lines : list string) (cl : Z) (resp : HTTPResponse) :
  (cl <= Z.of_nat (String.length (_data resp)))%Z ->
  parse_lines (mk_parser BODY cl resp) lines
  = Ret (mk_parser BODY cl (set_data (_data resp ++ join lines) resp)).
Proof.
  revert cl resp.
  induction lines as [|line lines IH]; intros cl resp Hcl; cbn [parse_lines].
  - change (join []) with EmptyString. now rewrite append_nil_r, set_data_same.
  - unfold parse_line at 1. cbn [p_state p_response p_content_length].
    assert (Hge : (Z.of_nat (String.length (_data resp ++ line)) <? cl)%Z = false).
    { apply Z.ltb_ge. rewrite length_append. lia. }
    rewrite Hge. cbn [rbind].
    rewrite IH by (cbn [_data set_data]; rewrite length_append; lia).
    cbn [_data set_data]. rewrite set_data_twice.
    change (join (line :: lines)) with (line ++ join lines).
    now rewrite append_assoc.
Qed.

Lemma parse_lines_app (a b : list string) (p : parser) :
  parse_lines p (a ++ b)%list
  = (try p' <- parse_lines p a; parse_lines p' b)%result.
Proof.
  revert p; induction a as [|line a IH]; intros p; cbn [parse_lines app rbind];
    [reflexivity|].
  destruct (parse_line p line) as [q| |]; cbn [rbind]; [apply IH | reflexivity..].
Qed.

(** A header that is not [content-length] leaves the bound and the body. *)
Lemma plain_header_step (cl : Z) (resp : HTTPResponse) (line : string) :
  plain_header line ->
  exists resp',
    parse_line (mk_parser HEADERS cl resp) line = Ret (mk_parser HEADERS cl resp')
    /\ _data resp' = _data resp.
Proof.
  intros [Hne [Hlast Hname]].
  assert (H0 : (String.length line =? 0)%nat = false).
  { destruct line; [contradiction | reflexivity]. }
  unfold colon_last in Hlast.
  destruct (find ":" line) as [pos|] eqn:Hpos.
  - pose proof (find_bound _ _ _ Hpos) as Hlt.
    apply Nat.eqb_neq in Hlast.
    rewrite (header_line_in_range cl resp line pos Hpos) by lia. cbv zeta.
    destruct (negb _).
    + rewrite (proj2 (String.eqb_neq _ _) (Hname pos eq_refl)).
      eexists. split; reflexivity.
    + destruct (find "=" _); eexists; split; reflexivity.
  - unfold parse_line. cbn [p_state p_response p_content_length].
    rewrite H0, Hpos. eexists. split; reflexivity.
Qed.

Lemma plain_headers_run (hdrs : list string) (cl : Z) (resp : HTTPResponse) :
  Forall plain_header hdrs ->
  exists resp',
    parse_lines (mk_parser HEADERS cl resp) hdrs = Ret (mk_parser HEADERS cl resp')
    /\ _data resp' = _data resp.
Proof.
  intros Hall. revert resp.
  induction Hall as [|line hdrs Hline _ IH]; intros resp; cbn [parse_lines].
  - eexists. split; reflexivity.
  - destruct (plain_header_step cl resp line Hline) as [r1 [-> Hd1]]. cbn [rbind].
    destruct (IH r1) as [r2 [-> Hd2]]. exists r2. split; [reflexivity | congruence].
Qed.

(** X14: without room left there are no separators.  Once the body is as long
    as content-length, every further body line is appended with nothing
    between the lines, so the body that comes out is the plain concatenation
    of those lines.  That is always so for a response without a
    content-length header: [ParseResponse] starts with the bound 0, no other
    header changes it, and the body of the response it returns is the
    concatenation of the lines after the first empty line, their CRLF lost. *)
Theorem body_lines_lose_crlf_without_room :
  (forall (lines : list string) (cl : Z) (resp : HTTPResponse),
      (cl <= Z.of_nat (String.length (_data resp)))%Z ->
      exists p',
        parse_lines (mk_parser BODY cl resp) lines = Ret p'
        /\ p_state p' = BODY
        /\ _data (p_response p') = _data resp ++ join lines)
  /\ (forall (Split : string -> string -> list string) (resp : HTTPResponse)
             (status : string) (hdrs body : list string),
         Split (_raw resp) CRLF = (status :: hdrs ++ EmptyString :: body)%list ->
         Forall plain_header hdrs ->
         exists r,
           ParseResponse Split resp = Ret (OK, r)
           /\ _data r = _data resp ++ join body).
Proof.
  split.
  - intros lines cl resp Hcl. eexists.
    split; [apply (body_lines_concatenated_run lines cl resp Hcl)|].
    split; reflexivity.
  - intros Split resp status hdrs body Hsplit Hplain.
    unfold ParseResponse. rewrite Hsplit. cbn [parse_lines].
    destruct (status_step_returns 0 resp status) as [a [b [c ->]]]. cbn [rbind].
    rewrite parse_lines_app.
    destruct (plain_headers_run hdrs 0 (set_status_line a b c resp) Hplain)
      as [r1 [-> Hd1]].
    cbn [rbind parse_lines]. unfold parse_line at 1.
    cbn [p_state p_response p_content_length String.length Nat.eqb rbind].
    rewrite (body_lines_concatenated_run body 0 r1) by lia.
    cbn [rbind p_response]. eexists. split; [reflexivity|].
    cbn [_data set_data]. rewrite Hd1. reflexivity.
Qed.

(** A response without content-length whose body has two lines. *)
Lemma body_without_content_length_example :
  exists r,
    ParseResponse Split_CRLF
      (set_raw ("HTTP/1.1 200 OK" ++ CRLF ++ "server: nginx" ++ CRLF ++ CRLF
                ++ "hello" ++ CRLF ++ "world") empty_response)
    = Ret (OK, r)
    /\ _data r = "helloworld".
Proof.
  destruct body_lines_lose_crlf_without_room as [_ Hresponse].
  apply (Hresponse Split_CRLF
           (set_raw ("HTTP/1.1 200 OK" ++ CRLF ++ "server: nginx" ++ CRLF ++ CRLF
                     ++ "hello" ++ CRLF ++ "world") empty_response)
           "HTTP/1.1 200 OK" ["server: nginx"] ["hello"; "world"]).
  - reflexivity.
  - constructor; [|constructor].
    split; [discriminate|]. split; [reflexivity|].
    intros pos Hpos. injection Hpos as <-. discriminate.
Defined.

(* ------------------------------------------------------------------------- *)
(** ** The content-length the formatter writes, read back by the parser *)

Lemma digits_value_of_uint (d : Decimal.uint) (acc : nat) :
  digits_value (Z.of_nat acc) (NilEmpty.string_of_uint d)
  = Z.of_nat (Nat.of_uint_acc d acc).
Proof.
  revert acc; induction d; intros acc; cbn [NilEmpty.string_of_uint Nat.of_uint_acc];
    [reflexivity| ..];
    cbn [digits_value]; rewrite <- IHd; f_equal;
    rewrite Nat.tail_mul_spec;
    match goal with
    | |- context [digit_value ?c] =>
        let v := eval vm_compute in (digit_value c) in
        change (digit_value c) with v
    end; lia.
Qed.

Lemma string_of_uint_digits (d : Decimal.uint) :
  string_forall isdigit (NilEmpty.string_of_uint d) = true.
Proof.
  induction d; cbn [NilEmpty.string_of_uint string_forall]; try reflexivity;
    rewrite IHd; reflexivity.
Qed.

Lemma to_string_is_number (n : nat) :
  is_number (to_string n) /\ digits_value 0 (to_string n) = Z.of_nat n.
Proof.
  unfold to_string, NilZero.string_of_uint.
  pose proof (Unsigned.of_to n) as Hn. unfold Nat.of_uint in Hn.
  destruct (Nat.to_uint n) as [|d|d|d|d|d|d|d|d|d|d] eqn:Hu;
    try (split;
         [ split; [discriminate | apply (string_of_uint_digits)]
         | rewrite <- Hn; apply (digits_value_of_uint _ 0) ]).
  split; [split; [discriminate | reflexivity]|].
  rewrite <- Hn. reflexivity.
Qed.

Lemma atoi_number (ds : string) :
  is_number ds -> (digits_value 0 ds <= INT_MAX)%Z -> atoi ds = digits_value 0 ds.
Proof.
  intros [Hne Hall] Hmax.
  pose proof (digits_value_nonneg ds 0 Hall (Z.le_refl 0)) as Hpos.
  unfold atoi.
  assert (Hskip : skip_ws ds = ds).
  { destruct ds as [|c t]; [reflexivity|]. cbn [skip_ws].
    cbn [string_forall] in Hall. apply andb_prop in Hall. destruct Hall as [Hc _].
    now rewrite (isdigit_not_space _ Hc). }
  rewrite Hskip.
  assert (Hspan : span isdigit ds = (ds, EmptyString)).
  { rewrite <- (append_nil_r ds) at 1. now apply span_prefix. }
  destruct ds as [|c t]; [contradiction|].
  assert (Hc : isdigit c = true)
    by (cbn [string_forall] in Hall; now apply andb_prop in Hall).
  destruct c as [[] [] [] [] [] [] [] []]; try discriminate Hc;
    cbv beta iota zeta; rewrite Hspan; cbn [fst];
    unfold INT_MAX in Hmax; unfold LONG_MAX, LONG_MIN;
    rewrite Z.min_r, Z.max_r by lia;
    apply wrap_int_small; unfold INT_MIN, INT_MAX; lia.
Qed.

(** X8: the content-length that [FormatRequest] writes is read back by the
    parser as the length of the body.  For a body that is not empty the
    request ends with the line [content-length: ] and the decimal length of
    the body, the content-type line, the blank line and the body itself; and
    that content-length line, as a header-state line of a response, sets the
    bound of the body to that same length. *)
Theorem content_length_is_read_back :
  forall (method path : string) (q : Map) (data ct : string) (headers cookies : Map)
         (cl : Z) (resp : HTTPResponse),
    data <> EmptyString ->
    (Z.of_nat (String.length data) <= INT_MAX)%Z ->
    (exists head,
        FormatRequest method path q data ct headers cookies
        = head ++ "content-length: " ++ to_string (String.length data) ++ CRLF
               ++ "content-type: " ++ ct ++ CRLF ++ CRLF ++ data)
    /\ atoi (to_string (String.length data)) = Z.of_nat (String.length data)
    /\ parse_line (mk_parser HEADERS cl resp)
         ("content-length: " ++ to_string (String.length data))
       = Ret (mk_parser HEADERS (Z.of_nat (String.length data))
                (set_headers
                   (assign "content-length" (to_string (String.length data))
                      (_headers resp)) resp)).
Proof.
  intros method path q data ct headers cookies cl resp Hne Hmax.
  set (n := String.length data) in *.
  destruct (to_string_is_number n) as [Hnum Hval].
  assert (Hatoi : atoi (to_string n) = Z.of_nat n).
  { rewrite atoi_number; [exact Hval | exact Hnum | now rewrite Hval]. }
  split; [|split; [exact Hatoi|]].
  - rewrite FormatRequest_layout. fold n.
    assert (Hlen : (n =? 0)%nat = false).
    { apply Nat.eqb_neq. subst n. destruct data; [contradiction | discriminate]. }
    rewrite Hlen. eexists. rewrite <- !append_assoc. reflexivity.
  - rewrite (header_line_in_range cl resp ("content-length: " ++ to_string n) 14);
      [| reflexivity | cbn [String.length append]; lia ].
    cbv zeta.
    change (take 14 ("content-length: " ++ to_string n)) with "content-length".
    change (drop (14 + 2) ("content-length: " ++ to_string n)) with (to_string n).
    change (transform tolower "content-length") with "content-length".
    change (negb ("content-length" =? "set-cookie")) with true.
    change ("content-length" =? "content-length") with true.
    cbv iota. rewrite Hatoi.
    unfold to_size_t. rewrite Z.mod_small by (unfold INT_MAX in Hmax; lia).
    reflexivity.
Qed.

(** A body of five bytes. *)
Lemma content_length_is_read_back_example :
  FormatRequest "POST" "/notes" (SMap.empty string) "hello" "text/plain"
    (SMap.empty string) (SMap.empty string)
  = "POST /notes HTTP/1.1" ++ CRLF ++ "content-length: 5" ++ CRLF
    ++ "content-type: text/plain" ++ CRLF ++ CRLF ++ "hello"
  /\ parse_line (mk_parser HEADERS 0 empty_response) "content-length: 5"
     = Ret (mk_parser HEADERS 5
              (set_headers (assign "content-length" "5" (SMap.empty string))
                 empty_response)).
Proof.
  split; [reflexivity|].
  apply (proj2 (proj2 (content_length_is_read_back "POST" "/notes" (SMap.empty string)
                         "hello" "text/plain" (SMap.empty string) (SMap.empty string)
                         0 empty_response
                         ltac:(discriminate) ltac:(vm_compute; discriminate)))).
Defined.

(* ------------------------------------------------------------------------- *)
(** ** A status line whose code is not a number *)

(** X12: a status code that does not start with a digit or a sign makes the
    extraction fail: the code stored is 0, and the status text is not read
    at all, so it keeps the value it had.  The version is still stored and
    the parser goes on to the headers. *)
Theorem status_line_without_number :
  forall (ver rest : string) (ch : ascii) (cl : Z) (resp : HTTPResponse),
    is_token ver ->
    isdigit ch = false -> isspace ch = false -> ch <> "-"%char -> ch <> "+"%char ->
    parse_line (mk_parser STATUS cl resp) (ver ++ " " ++ String ch rest)
    = Ret (mk_parser HEADERS cl (set_status_line ver 0 (_status resp) resp)).
Proof.
  intros ver rest ch cl resp Hver Hdigit Hspace Hminus Hplus.
  unfold parse_line. cbn [p_state p_response p_content_length].
  rewrite (extract_string_token EmptyString ver (" " ++ String ch rest));
    [| reflexivity | exact Hver | reflexivity ].
  assert (Hint : extract_int (mk_ss (" " ++ String ch rest) false) (_code resp)
                 = (0%Z, mk_ss (String ch rest) true)).
  { unfold extract_int. cbn [ss_fail ss_rest append skip_ws].
    change (isspace " ") with true. cbv iota. rewrite Hspace.
    destruct ch as [[] [] [] [] [] [] [] []];
      try (now elim Hminus); try (now elim Hplus); try discriminate Hdigit;
      cbv beta iota zeta; cbn [span]; rewrite ?Hdigit; reflexivity. }
  rewrite Hint. reflexivity.
Qed.

(** The line [HTTP/1.1 abc Found]. *)
Lemma status_line_without_number_example :
  parse_line (mk_parser STATUS 0 empty_response) "HTTP/1.1 abc Found"
  = Ret (mk_parser HEADERS 0 (set_status_line "HTTP/1.1" 0 EmptyString empty_response)).
Proof.
  apply (status_line_without_number "HTTP/1.1" "bc Found" "a" 0 empty_response
           ltac:(split; [discriminate | reflexivity])
           ltac:(reflexivity) ltac:(reflexivity)
           ltac:(discriminate) ltac:(discriminate)).
Defined.

(* ------------------------------------------------------------------------- *)
(** ** Sockets opened and closed *)




Section Connections.

Context {W : Type} `{Sockets W}.
Variable Split : string -> string -> list string.




Lemma parse_lines_keeps_raw (lines : list string) (p p' : parser) :
  parse_lines p lines = Ret p' -> _raw (p_response p') = _raw (p_response p).
Proof.
  revert p; induction lines as [|line lines IH]; intros p; cbn [parse_lines].
  - now intros [= <-].
  - destruct (parse_line p line) as [q| |] eqn:Hq; cbn [rbind]; try discriminate.
    intros Hrest. rewrite (IH _ Hrest). clear IH Hrest.
    destruct p as [st cl resp]. cbn [p_response]. destruct st.
    + destruct (status_step_returns cl resp line) as [a [b [c E]]].
      rewrite E in Hq. now injection Hq as <-.
    + destruct (header_step_cases cl resp line)
        as [[_ E]|[_ [[E _]|[_ [E|[[key [val [cl' E]]]|[name [value E]]]]]]]];
        rewrite E in Hq; try discriminate; now injection Hq as <-.
    + destruct (body_step_returns cl resp line) as [d E].
      rewrite E in Hq. now injection Hq as <-.
Qed.

Lemma find_nul_append_c_str (a b : string) :
  find NUL a = None -> find NUL (a ++ c_str b) = None.
Proof.
  intros Ha. apply find_append_none; [exact Ha|].
  induction b as [|c b IH]; cbn [c_str]; [reflexivity|].
  destruct (Ascii.eqb c NUL) eqn:Hc; [reflexivity|].
  cbn [find]. rewrite Hc. now rewrite IH.
Qed.

(** Whatever the reads return, a [Receive] that returns has made [recv] calls
    only, returns [SOCKET_RECV] when one of them failed and [OK] when none
    did, and has put no NUL byte in the raw buffer. *)
Lemma Receive_loop_events (sockfd : Z) :
  forall (fuel : nat) (response r : HTTPResponse) (s s' : Sys W) (err : ECode),
    Receive_loop Split fuel sockfd response s = Ret ((err, r), s') ->
    exists evs,
      trace s' = (trace s ++ evs)%list /\ forallb is_recv evs = true
      /\ ((err = OK /\ existsb recv_failed evs = false)
          \/ (err = SOCKET_RECV /\ existsb recv_failed evs = true))
      /\ (find NUL (_raw response) = None -> find NUL (_raw r) = None).
Proof.
  induction fuel as [|fuel IH]; intros response r s s' err;
    cbn [Receive_loop]; [discriminate|].
  unfold bind at 1. unfold call_recv.
  destruct (sys_recv sockfd RECV_CAPACITY (world s)) as [[buffer|] w].
  - destruct (negb _).
    + unfold lift, ParseResponse.
      destruct (parse_lines _ _) as [p| |] eqn:Hp; cbn [rbind]; try discriminate.
      intros [= <- <- <-]. eexists [_]. cbn [trace].
      repeat split; auto.
      intros Hraw. rewrite (parse_lines_keeps_raw _ _ _ Hp).
      cbn [p_response _raw set_raw]. now apply find_nul_append_c_str.
    + intros Hrun. destruct (IH _ _ _ _ _ Hrun) as [evs [Htrace [Hall [Herr Hraw]]]].
      cbn [trace] in Htrace. rewrite <- app_assoc in Htrace.
      eexists (_ :: evs). split; [exact Htrace|]. split; [exact Hall|].
      split; [exact Herr|].
      intros Hresp. apply Hraw. cbn [_raw set_raw]. now apply find_nul_append_c_str.
  - unfold ret. intros [= <- <- <-]. eexists [_]. cbn [trace]. repeat split; auto.
Qed.

(** X6: the raw buffer never holds a NUL byte.  Whatever bytes the reads
    deliver, the response that [Receive] returns, parsed or not, has a raw
    buffer without NUL: every chunk is cut at its first NUL before it is
    appended. *)
Theorem Receive_raw_has_no_nul :
  forall (fuel : nat) (sockfd : Z) (response r : HTTPResponse) (s s' : Sys W)
         (err : ECode),
    Receive Split fuel sockfd response s = Ret ((err, r), s') ->
    find NUL (_raw r) = None.
Proof.
  intros fuel sockfd response r s s' err Hrun. unfold Receive in Hrun.
  destruct (Receive_loop_events _ _ _ _ _ _ _ Hrun) as [_ [_ [_ [_ Hraw]]]].
  now apply Hraw.
Qed.





End Connections.

(** A chunk with a NUL byte in it. *)
Lemma Receive_raw_has_no_nul_example :
  exists r s',
    Receive Split_CRLF 2 3 empty_response
      (test_net 1 [Some ("HTTP/1.1 200 OK" ++ CRLF ++ String NUL "rest")])
    = Ret ((OK, r), s')
    /\ find NUL (_raw r) = None.
Proof.
  do 2 eexists.
  assert (Hrun : Receive Split_CRLF 2 3 empty_response
                   (test_net 1 [Some ("HTTP/1.1 200 OK" ++ CRLF ++ String NUL "rest")])
                 = Ret ((OK, _), _)) by (vm_compute; reflexivity).
  split; [exact Hrun|].
  exact (@Receive_raw_has_no_nul TestNet TestNet_Sockets Split_CRLF _ _ _ _ _ _ _ Hrun).
Defined.


(* ------------------------------------------------------------------------- *)
(** ** What a request changes in the client *)

Section ClientState.

Context {W : Type} `{Sockets W}.
Variable Split : string -> string -> list string.

(** X3: a [Request] changes nothing of the client but the cookie jar, and
    never removes a cookie from it.  Host, port, address and system headers
    are as before whatever the outcome; a request that fails leaves the whole
    client as it was; a name that was in the jar is still in it afterwards. *)
Theorem Request_only_adds_to_the_jar :
  forall (fuel : nat) (c c' : HTTPClient) (method path : string) (q : Map)
         (data ct : string) (uh uc : Map) (s s' : Sys W) (err : ECode),
    Request Split fuel c method path q data ct uh uc s = Ret ((err, c'), s') ->
    _unresolved_host c' = _unresolved_host c
    /\ _port c' = _port c
    /\ _address c' = _address c
    /\ _system_headers c' = _system_headers c
    /\ (err <> OK -> c' = c)
    /\ (forall name, SMap.In name (_system_cookies c) ->
                     SMap.In name (_system_cookies c')).
Proof.
  intros fuel c c' method path q data ct uh uc s s' err Hrun.
  destruct (Request_outcome Split _ _ _ _ _ _ _ _ _ _ _ _ _ Hrun)
    as [[Hne ->]|[-> [sockfd [s2 [s3 [resp [_ ->]]]]]]].
  - repeat split; auto.
  - repeat split; try reflexivity; [intros Hne; now elim Hne|].
    intros name Hin.
    apply SMapFacts.in_find_iff. apply SMapFacts.in_find_iff in Hin.
    rewrite find_update_cookies.
    destruct (SMap.find name (GetCookies resp)); [discriminate | exact Hin].
Qed.

(** X4: [Send] does not return while the transport takes nothing.  If every
    [send] call returns 0, a request that is not empty is never sent and no
    error is reported: the loop asks again with the same arguments, whatever
    the number of rounds it is given. *)
Theorem Send_never_returns_on_zero_writes :
  forall (fuel : nat) (sockfd : Z) (request : string) (s : Sys W),
    (forall fd buf len w, fst (sys_send fd buf len w) = 0%Z) ->
    request <> EmptyString ->
    (Z.of_nat (String.length request) <= INT_MAX)%Z ->
    Send fuel sockfd request s = Diverges.
Proof.
  intros fuel sockfd request s Hzero Hne Hmax. unfold Send.
  assert (Hlen : (0 < Z.of_nat (String.length request))%Z).
  { destruct request; [contradiction | cbn [String.length]; lia]. }
  rewrite wrap_int_small by (unfold INT_MIN, INT_MAX in *; lia).
  revert s. induction fuel as [|fuel IH]; intros s; cbn [Send_loop]; [reflexivity|].
  rewrite (proj2 (Z.eqb_neq _ _)) by lia.
  unfold bind at 1. unfold call_send.
  pose proof (Hzero sockfd (drop (Z.to_nat 0) request)
                (Z.of_nat (String.length request)) (world s)) as Hr.
  destruct (sys_send sockfd _ _ (world s)) as [r w]. cbn [fst] in Hr. subst r.
  change (0 =? SOCKET_ERROR)%Z with false. cbv iota.
  rewrite Z.sub_0_r. change (0 + 0)%Z with 0%Z.
  rewrite (wrap_int_small 0) by (unfold INT_MIN, INT_MAX; lia).
  rewrite wrap_int_small by (unfold INT_MIN, INT_MAX in *; lia).
  apply IH.
Qed.


(** X5: [Receive] does not return while every read fills the buffer.  The
    loop ends only on a read of fewer than 255 bytes or on an error; if each
    [recv] call stores exactly 255 bytes, nothing is parsed and nothing is
    returned, whatever the number of rounds. *)
Theorem Receive_never_returns_on_full_reads :
  forall (fuel : nat) (sockfd : Z) (response : HTTPResponse) (s : Sys W),
    (forall fd len w,
        exists chunk, fst (sys_recv fd len w) = Some chunk
                      /\ String.length chunk = 255) ->
    Receive Split fuel sockfd response s = Diverges.
Proof.
  intros fuel sockfd response s Hfull. unfold Receive.
  generalize (Reset response). revert s.
  induction fuel as [|fuel IH]; intros s r; cbn [Receive_loop]; [reflexivity|].
  unfold bind at 1. unfold call_recv.
  destruct (Hfull sockfd RECV_CAPACITY (world s)) as [chunk [Hchunk Hlen]].
  destruct (sys_recv sockfd RECV_CAPACITY (world s)) as [got w].
  cbn [fst] in Hchunk. subst got. rewrite Hlen.
  change (negb (Z.of_nat 255 =? RECV_CAPACITY)%Z) with false. cbv iota.
  apply IH.
Qed.

End ClientState.

(** A request over a connection that receives a cookie. *)
Lemma Request_only_adds_to_the_jar_example :
  exists s',
    Request Split_CRLF 256 (HTTPClient_new "example.com" 80) "GET" "/login"
      (SMap.empty string) EmptyString EmptyString (SMap.empty string)
      (SMap.empty string) (test_net 16 [Some cookie_reply])
    = Ret ((OK, client_with_session), s')
    /\ _system_headers client_with_session
       = _system_headers (HTTPClient_new "example.com" 80).
Proof.
  eexists.
  assert (Hrun : Request Split_CRLF 256 (HTTPClient_new "example.com" 80) "GET" "/login"
                   (SMap.empty string) EmptyString EmptyString (SMap.empty string)
                   (SMap.empty string) (test_net 16 [Some cookie_reply])
                 = Ret ((OK, client_with_session), _)) by (vm_compute; reflexivity).
  split; [exact Hrun|].
  exact (proj1 (proj2 (proj2 (proj2
           (@Request_only_adds_to_the_jar TestNet TestNet_Sockets Split_CRLF
              _ _ _ _ _ _ _ _ _ _ _ _ _ Hrun))))).
Defined.

(** The stalled transport of [Stalled_Sockets]. *)
Lemma Send_never_returns_example :
  @Send unit Stalled_Sockets 1000 3 "GET / HTTP/1.1" (mk_sys tt []) = Diverges.
Proof.
  apply (@Send_never_returns_on_zero_writes unit Stalled_Sockets 1000 3
           "GET / HTTP/1.1" (mk_sys tt [])).
  - reflexivity.
  - discriminate.
  - vm_compute. discriminate.
Defined.

(** A peer that fills every read. *)
Lemma Receive_never_returns_example :
  @Receive Flood Flood_Sockets Split_CRLF 50 3 empty_response (mk_sys flood [])
  = Diverges.
Proof.
  apply (@Receive_never_returns_on_full_reads Flood Flood_Sockets Split_CRLF
           50 3 empty_response (mk_sys flood [])).
  intros fd len w. exists (filler 255). split; reflexivity.
Defined.


(* ------------------------------------------------------------------------- *)
(** ** The first request of a new client *)

(** X7: what a new client sends.  A client just constructed for [host] and
    [port], asked for a request without headers, cookies or body, sends the
    request line, the single header [host: host:port], and the blank line:
    no cookie line and no content headers. *)
Theorem new_client_sends_host_header_only :
  forall (host method path content_type : string) (port : Z) (q : Map),
    request_bytes (HTTPClient_new host port) method path q EmptyString content_type
      (SMap.empty string) (SMap.empty string)
    = request_line method path q
      ++ "host: " ++ host ++ ":" ++ to_string_int port ++ CRLF ++ CRLF.
Proof.
  intros host method path content_type port q.
  unfold request_bytes. rewrite FormatRequest_layout.
  assert (Hheaders : SMap.elements
                       (merged_headers (HTTPClient_new host port) (SMap.empty string))
                     = [("host", host ++ ":" ++ to_string_int port)]) by reflexivity.
  assert (Hcookies : (size (merged_cookies (HTTPClient_new host port)
                              (SMap.empty string)) =? 0)%nat = true) by reflexivity.
  rewrite Hheaders, Hcookies.
  change (join (map header_line [("host", host ++ ":" ++ to_string_int port)]))
    with (("host: " ++ (host ++ ":" ++ to_string_int port) ++ CRLF) ++ EmptyString).
  change (String.length EmptyString =? 0)%nat with true. cbv iota.
  rewrite append_nil_r. rewrite !append_assoc. reflexivity.
Qed.
